(** * GoalOrientedBot: the dialog-management core of [deeppavlov/skills/go_bot/go_bot.py]

    A shallow embedding of class [GoalOrientedBot] and the properties of its
    action codec, action mask, dialog state and training / inference loops.

    Conventions of the embedding.
    - [self] is split in two: the attributes fixed by [__init__]
      ([GoalOrientedBotConfig]) and the attributes the methods mutate ([Bot]).
      A method is a function from [Bot] to a [Result] carrying the new [Bot].
    - Python exceptions are the [Raise] results of the [Result] monad.
    - numpy arrays of dtype float32 are lists of binary64 floats: every
      float32 value is a binary64 value, and the only arithmetic this module
      performs on array entries is the multiplication by zero of
      [prev_action *= 0.].
    - The collaborators whose classes live in other modules (tokenizer,
      encoders, slot filler, tracker, templates, network, corpus) are
      parameters; calls to the network are recorded in the order they are
      made, and what the network answers may depend on that record.
    - Logging, the prints of [train] and what the [debug] flag adds to them
      are left out, as are [report], [shutdown] and [load], which only
      forward to a collaborator or do nothing. *)

From Stdlib Require Import ZArith String Ascii List Lia Bool Floats.
From stdpp Require Import base option list gmap strings pretty.

Set Warnings "-inexact-float".

Local Open Scope string_scope.
Local Open Scope list_scope.
Local Open Scope Z_scope.

(** ** Exceptions *)

Inductive PyError : Type :=
| ValueError   (* list.index on an absent element, argmax of an empty array *)
| IndexError   (* subscript out of range *)
| ConfigError. (* raised by [train] *)

Inductive Result (A : Type) : Type :=
| Ok (a : A)
| Raise (e : PyError).
Arguments Ok {A} a.
Arguments Raise {A} e.

#[global] Instance Result_ret : MRet Result := λ A a, Ok a.
#[global] Instance Result_bind : MBind Result := λ A B f m,
  match m with
  | Ok a => f a
  | Raise e => Raise e
  end.

(** Whether a result is a value, and the value it is. *)
Definition succeeds {A} (r : Result A) : bool :=
  match r with
  | Ok _ => true
  | Raise _ => false
  end.

Definition result_or {A} (dflt : A) (r : Result A) : A :=
  match r with
  | Ok a => a
  | Raise _ => dflt
  end.

(** [for x in xs: st = body(st, x)], stopping at the first exception. *)
Fixpoint for_each {A S} (body : S → A → Result S) (xs : list A) (st : S) : Result S :=
  match xs with
  | [] => Ok st
  | x :: xs' => st' ← body st x; for_each body xs' st'
  end.

(** ** The Python and numpy operations the module relies on *)

Module Py.

(** [zip(xs, ys)]: pairs up to the end of the shorter sequence. *)
Fixpoint zip {A B} (xs : list A) (ys : list B) : list (A * B) :=
  match xs, ys with
  | x :: xs', y :: ys' => (x, y) :: zip xs' ys'
  | _, _ => []
  end.

(** [l.index(x)]: position of the first element equal to [x]. *)
Fixpoint index_from (x : string) (l : list string) (i : nat) : Result nat :=
  match l with
  | [] => Raise ValueError
  | y :: l' => if String.eqb y x then Ok i else index_from x l' (S i)
  end.
Definition index (x : string) (l : list string) : Result nat := index_from x l 0.

(** [l[i]] for an integer [i]: a negative subscript counts from the end. *)
Definition getitem {A} (l : list A) (i : Z) : Result A :=
  let n := Z.of_nat (length l) in
  let j := if i <? 0 then i + n else i in
  if (0 <=? j) && (j <? n)
  then match l !! Z.to_nat j with
       | Some a => Ok a
       | None => Raise IndexError
       end
  else Raise IndexError.

(** [a[i] = v] on an array, for a subscript produced by [index] or
    [argmax] (never negative). *)
Definition setitem {A} (l : list A) (i : nat) (v : A) : Result (list A) :=
  if decide (i < length l)%nat then Ok (<[i := v]> l) else Raise IndexError.

(** [sep.join(parts)] *)
Fixpoint join (sep : string) (parts : list string) : string :=
  match parts with
  | [] => ""
  | [p] => p
  | p :: ps => p +:+ sep +:+ join sep ps
  end.

(** The ASCII characters [str.strip()] removes. *)
Definition is_space (c : ascii) : bool :=
  let n := nat_of_ascii c in
  ((9 <=? n) && (n <=? 13) || (28 <=? n) && (n <=? 32))%nat.

Fixpoint lstrip (s : string) : string :=
  match s with
  | String c s' => if is_space c then lstrip s' else s
  | EmptyString => EmptyString
  end.

Fixpoint rstrip (s : string) : string :=
  match s with
  | String c s' =>
      match rstrip s' with
      | EmptyString => if is_space c then EmptyString else String c EmptyString
      | r => String c r
      end
  | EmptyString => EmptyString
  end.

Definition strip (s : string) : string := rstrip (lstrip s).

(** [re.findall(pat, s)] for a pattern that matches only the text [pat]
    itself: the matches, scanned left to right without overlap.  [skip]
    counts the characters of the last match still to be passed. *)
Fixpoint findall_from (pat : string) (skip : nat) (s : string) : list string :=
  match s with
  | EmptyString => []
  | String _ s' =>
      match skip with
      | S k => findall_from pat k s'
      | O => if String.prefix pat s
             then pat :: findall_from pat (String.length pat - 1) s'
             else findall_from pat 0 s'
      end
  end.
Definition findall (pat s : string) : list string := findall_from pat 0 s.

(** [str(v)] for the values a database result holds. *)
Inductive value : Type :=
| VInt (z : Z)
| VStr (s : string).

Definition str (v : value) : string :=
  match v with
  | VInt z => pretty z
  | VStr s => s
  end.

End Py.

Module Np.

Definition zeros (n : nat) : list float := replicate n 0%float.
Definition ones (n : nat) : list float := replicate n 1%float.

(** [a *= c] *)
Definition imul (a : list float) (c : float) : list float :=
  map (λ x, PrimFloat.mul x c) a.

(** [np.argmax(a)]: the first position of the maximum; a NaN counts as
    maximal and ends the scan. *)
Fixpoint argmax_from (a : list float) (i : nat) (mp : float) (max_ind : nat) : nat :=
  match a with
  | [] => max_ind
  | x :: a' =>
      if negb (PrimFloat.leb x mp)
      then if PrimFloat.is_nan x then i else argmax_from a' (S i) x i
      else argmax_from a' (S i) mp max_ind
  end.
Definition argmax (a : list float) : Result nat :=
  match a with
  | [] => Raise ValueError
  | x :: a' => Ok (if PrimFloat.is_nan x then 0%nat else argmax_from a' 1 x 0)
  end.

(** [np.hstack(parts)] of one-dimensional arrays *)
Definition hstack (parts : list (list float)) : list float := concat parts.

End Np.

(** ** Collaborators *)

(** The tracker interface ([DefaultTracker] and its kin): [update_state],
    [infer], [get_state] and [reset_state], on an explicit tracker state. *)
Class TrackerI : Type := {
  tracker_state : Type;
  reset_state : tracker_state → tracker_state;
  update_state : tracker_state → gmap string string → tracker_state;
  tracker_infer : tracker_state → list float;
  (** a fresh mapping from slot name to value on every call *)
  get_state : tracker_state → gmap string string;
}.

(** A response template: [str(tmpl)] and [tmpl.generate_text(slots)]. *)
Class TemplateI : Type := {
  template : Type;
  template_str : template → string;
  generate_text : template → gmap string string → string;
}.

(** A dialog turn as the corpus gives it. [db_result] and [prev_resp_act]
    are what [context.get(...)] returns: [None] when the key is absent. *)
Module Ctx.
Record t : Type := {
  text : string;
  db_result : option (gmap string Py.value);
  prev_resp_act : option string;
}.
End Ctx.

Module Resp.
Record t : Type := {
  act : string;
  text : string;
}.
End Resp.

(** A batch is a pair of parallel tuples: the context sequences and the
    response sequences of its dialogs. *)
Definition Batch : Type := list (list Ctx.t) * list (list Resp.t).

(** [data.batch_generator(batch_size, split, shuffle)] *)
Definition Data : Type := nat → string → bool → list Batch.

(** The calls the bot makes on [self.network], oldest first. *)
Inductive NetCall : Type :=
| NetResetState
| NetTrain (features : list (list float)) (actions : list nat) (masks : list (list float))
| NetInfer (features mask : list float)
| NetSave.

Definition is_reset_call (c : NetCall) : bool :=
  match c with
  | NetResetState => true
  | _ => false
  end.

Definition is_infer_call (c : NetCall) : bool :=
  match c with
  | NetInfer _ _ => true
  | _ => false
  end.

(** Modelled from the spec: class [DialogMetrics] is defined in
    [go_bot/metrics.py]; its running counters are the dialog count, the turn
    count, the cumulative loss and the confusion matrix indexed
    [predicted action][true action] (kept here as a finite map, so that the
    bounds of the matrix play no role). *)
Record DialogMetrics : Type := {
  n_dialogs : Z;
  n_examples : Z;
  train_loss : float;
  conf_matrix : gmap (nat * nat) Z;
}.

Definition metrics_reset : DialogMetrics :=
  {| n_dialogs := 0; n_examples := 0; train_loss := 0%float; conf_matrix := ∅ |}.

(** ** Vectors of the previous-action memory *)

(** The one-hot vector of length [n] for action [a]. *)
Definition onehot (n a : nat) : list float := <[a := 1%float]> (replicate n 0%float).

(** A vector of zeros and ones, as the previous-action memory is on the
    teacher-forced paths. *)
Definition zero_one (v : list float) : Prop :=
  Forall (λ x, x = 0%float ∨ x = 1%float) v.

Section GoalOrientedBot.

Context {Tr : TrackerI} {Tm : TemplateI}.

(** The attributes [__init__] fixes.

    Modelled from the spec: class [Templates] is defined in
    [go_bot/templates.py]; it exposes an ordered list of action labels
    ([templates.actions]) and, per action, its template
    ([templates.templates]), and [len(templates)] is the number of loaded
    templates.  The store is the ordered list of (label, template) pairs. *)
Record GoalOrientedBotConfig : Type := {
  templates : list (string * template);
  use_action_mask : bool;
  tokenizer : string → list string;
  (** [bow_encoder.infer(tokenized, word_vocab)] *)
  bow_encoder : string → list float;
  (** [None] when the object has no [infer] attribute *)
  embedder : option (string → list float);
  intent_classifier : option (string → list float);
  slot_filler : option (string → gmap string string);
  num_epochs : nat;
  val_patience : Z;
  train_now : bool;
  (** [network.train_now] *)
  network_train_now : bool;
  (** what [network.train] and [network.infer] return, given the calls
      the network has received before *)
  network_train : list NetCall → list (list float) → list nat → list (list float)
                  → float * list nat;
  network_infer : list NetCall → list float → list float → list float;
}.

(** The attributes the methods mutate. *)
Record Bot : Type := {
  tracker : tracker_state;
  db_result : option (gmap string Py.value);
  prev_action : list float;
  network : list NetCall;
  metrics : DialogMetrics;
}.

Definition set_tracker (b : Bot) (t : tracker_state) : Bot :=
  {| tracker := t; db_result := db_result b; prev_action := prev_action b;
     network := network b; metrics := metrics b |}.
Definition set_db_result (b : Bot) (d : option (gmap string Py.value)) : Bot :=
  {| tracker := tracker b; db_result := d; prev_action := prev_action b;
     network := network b; metrics := metrics b |}.
Definition set_prev_action (b : Bot) (a : list float) : Bot :=
  {| tracker := tracker b; db_result := db_result b; prev_action := a;
     network := network b; metrics := metrics b |}.
Definition set_network (b : Bot) (n : list NetCall) : Bot :=
  {| tracker := tracker b; db_result := db_result b; prev_action := prev_action b;
     network := n; metrics := metrics b |}.
Definition set_metrics (b : Bot) (m : DialogMetrics) : Bot :=
  {| tracker := tracker b; db_result := db_result b; prev_action := prev_action b;
     network := network b; metrics := m |}.

Variable cfg : GoalOrientedBotConfig.

(** [self.templates.actions], [self.templates.templates], [self.n_actions] *)
Definition actions : list string := map fst (templates cfg).
Definition templates_list : list template := map snd (templates cfg).
Definition n_actions : nat := length (templates cfg).

(** [(d == {}) * 1.] for [d] that is [None] or a dictionary *)
Definition is_empty_dict (d : option (gmap string Py.value)) : float :=
  match d with
  | Some m => if decide (m = ∅) then 1%float else 0%float
  | None => 0%float
  end.

(** The text the encoders receive: [' '.join(tokens).strip()]. *)
Definition tokenized (context : string) : string :=
  Py.strip (Py.join " " (tokenizer cfg context)).

Definition _encode_context (b : Bot) (context : string)
    (db_result' : option (gmap string Py.value)) : Bot * list float :=
  let tokenized := tokenized context in
  let bow_features := bow_encoder cfg tokenized in
  let emb_features :=
    match embedder cfg with
    | Some embedder_infer => embedder_infer tokenized
    | None => []
    end in
  let intent_features :=
    match intent_classifier cfg with
    | Some intent_infer => intent_infer tokenized
    | None => []
    end in
  let b :=
    match slot_filler cfg with
    | Some slot_infer => set_tracker b (update_state (tracker b) (slot_infer tokenized))
    | None => b
    end in
  let state_features := tracker_infer (tracker b) in
  let context_features := [is_empty_dict db_result'; is_empty_dict (db_result b)] in
  (b, Np.hstack [bow_features; emb_features; intent_features;
                 state_features; context_features; prev_action b]).

Definition _encode_response (act : string) : Result nat :=
  Py.index act actions.

(** The slot values a response is rendered with: the tracker's state,
    overwritten key by key with the stored database result. *)
Definition response_slots (b : Bot) : gmap string string :=
  let slots := get_state (tracker b) in
  match db_result b with
  | Some d => map_fold (λ k v slots, <[k := Py.str v]> slots) slots d
  | None => slots
  end.

Definition _decode_response (b : Bot) (action_id : Z) : Result string :=
  template ← Py.getitem templates_list action_id;
  Ok (generate_text template (response_slots b)).

(** [entity not in self.tracker.get_state() and
     entity not in (self.db_result or {})] *)
Definition entity_unknown (b : Bot) (entity : string) : bool :=
  bool_decide (get_state (tracker b) !! entity = None)
  && bool_decide (default ∅ (db_result b) !! entity = None).

(** The pattern of [re.findall('#{}', tmpl)] has an empty pair of braces,
    which [re] reads as the two characters themselves: the pattern matches
    the text [#{}] and nothing else. *)
Definition _action_mask (b : Bot) : Result (list float) :=
  let action_mask := Np.ones n_actions in
  if use_action_mask cfg then
    for_each (λ action_mask a_id,
        tmpl ← Py.getitem templates_list (Z.of_nat a_id);
        for_each (λ action_mask entity,
            if entity_unknown b entity
            then Py.setitem action_mask a_id 0%float
            else Ok action_mask)
          (Py.findall "#{}" (template_str tmpl)) action_mask)
      (seq 0 n_actions) action_mask
  else Ok action_mask.

(** The bot [__init__] leaves, around the tracker it is given and a
    network that has not been called yet. *)
Definition init (t : tracker_state) : Bot :=
  {| tracker := t;
     db_result := None;
     prev_action := Np.zeros n_actions;
     network := [];
     metrics := metrics_reset |}.

Definition reset (b : Bot) : Bot :=
  {| tracker := reset_state (tracker b);
     db_result := None;
     prev_action := Np.zeros n_actions;
     network := network b ++ [NetResetState];
     metrics := metrics b |}.

Definition reset_metrics (b : Bot) : Bot := set_metrics b metrics_reset.

Definition save (b : Bot) : Bot := set_network b (network b ++ [NetSave]).

(** [self.prev_action *= 0.; self.prev_action[action_id] = 1.] *)
Definition force_prev_action (b : Bot) (action_id : nat) : Result Bot :=
  prev_action' ← Py.setitem (Np.imul (prev_action b) 0%float) action_id 1%float;
  Ok (set_prev_action b prev_action').

(** [if db_result is not None: self.db_result = db_result] *)
Definition store_db_result (b : Bot) (db_result' : option (gmap string Py.value)) : Bot :=
  match db_result' with
  | Some d => set_db_result b (Some d)
  | None => b
  end.

(** *** Training *)

(** The per-dialog accumulators [d_features, d_actions, d_masks]. *)
Record DialogTurns : Type := {
  d_features : list (list float);
  d_actions : list nat;
  d_masks : list (list float);
}.

Definition no_turns : DialogTurns :=
  {| d_features := []; d_actions := []; d_masks := [] |}.

(** The body of the loop over the turn pairs of a dialog, the same in
    [train_on_batch] and in [train]. *)
Definition train_turn (st : Bot * DialogTurns) (turn : Ctx.t * Resp.t)
    : Result (Bot * DialogTurns) :=
  let context := turn.1 in
  let response := turn.2 in
  let enc := _encode_context st.1 (Ctx.text context) (Ctx.db_result context) in
  let b := store_db_result enc.1 (Ctx.db_result context) in
  let features := enc.2 in
  action_id ← _encode_response (Resp.act response);
  (* previous action is teacher-forced here *)
  b ← force_prev_action b action_id;
  mask ← _action_mask b;
  Ok (b, {| d_features := d_features st.2 ++ [features];
            d_actions := d_actions st.2 ++ [action_id];
            d_masks := d_masks st.2 ++ [mask] |}).

(** The turns of one dialog, from the bot as it is when the loop over
    the turn pairs is entered, up to the call of [self.network.train]. *)
Definition train_dialog_turns (b : Bot) (dialog : list Ctx.t * list Resp.t)
    : Result (Bot * DialogTurns) :=
  for_each train_turn (Py.zip dialog.1 dialog.2) (b, no_turns).

(** [self.network.train(d_features, d_actions, d_masks)] *)
Definition call_network_train (b : Bot) (d : DialogTurns) : Bot * (float * list nat) :=
  (set_network b (network b ++ [NetTrain (d_features d) (d_actions d) (d_masks d)]),
   network_train cfg (network b) (d_features d) (d_actions d) (d_masks d)).

(** Modelled from the spec: the decorator [check_attr_true] is defined in
    [core/common/attributes.py]; the decorated method proceeds only when
    the named attribute of [self] is true, and does nothing otherwise. *)
Definition check_attr_true {A} (attr : bool) (method : Bot → Result (Bot * option A))
    (b : Bot) : Result (Bot * option A) :=
  if attr then method b else Ok (b, None).

Definition train_on_batch (b : Bot) (batch : Batch) : Result (Bot * option unit) :=
  check_attr_true (train_now cfg) (λ b,
    b ← for_each (λ b dialog,
           let b := reset b in
           st ← train_dialog_turns b dialog;
           Ok (call_network_train st.1 st.2).1)
         (Py.zip batch.1 batch.2) b;
    Ok (b, Some ())) b.

(** The metric updates of [train] for one (predicted, true) action pair. *)
Definition count_example (loss : float) (m : DialogMetrics) (p : nat * nat) : DialogMetrics :=
  {| n_dialogs := n_dialogs m;
     n_examples := n_examples m + 1;
     train_loss := PrimFloat.add (train_loss m) loss;
     conf_matrix := <[p := default 0 (conf_matrix m !! p) + 1]> (conf_matrix m) |}.

Definition count_dialog (m : DialogMetrics) : DialogMetrics :=
  {| n_dialogs := n_dialogs m + 1; n_examples := n_examples m;
     train_loss := train_loss m; conf_matrix := conf_matrix m |}.

(** The body of the loop over the dialogs of a batch in [train]. *)
Definition train_dialog (b : Bot) (dialog : list Ctx.t * list Resp.t) : Result Bot :=
  let b := reset b in
  let b := set_metrics b (count_dialog (metrics b)) in
  st ← train_dialog_turns b dialog;
  let out := call_network_train st.1 st.2 in
  let loss := out.2.1 in
  let d_preds := out.2.2 in
  Ok (set_metrics out.1
        (fold_left (count_example loss) (Py.zip d_preds (d_actions st.2)) (metrics out.1))).

(** [self.evaluate(data)], inherited from a base class: the bot after the
    evaluation pass and the [action_accuracy] of the metrics it returns. *)
Variable evaluate : list Batch → Bot → Bot * float.

(** One iteration of [for j in range(self.num_epochs)], up to the
    validation accuracy.  The two evaluation passes ask the corpus for
    shuffled batches, the default of [batch_generator]. *)
Definition train_epoch (data : Data) (b : Bot) : Result (Bot * float) :=
  let tr_data := data 1%nat "train" false in
  let b := reset_metrics b in
  b ← for_each (λ b batch, for_each train_dialog (Py.zip batch.1 batch.2) b) tr_data b;
  let train_data := data 1%nat "train" true in
  let eval_data := data 1%nat "valid" true in
  let b := (evaluate train_data b).1 in
  let valid := evaluate eval_data b in
  Ok valid.

(** The patience bookkeeping at the end of an iteration: the new
    [curr_patience] and [best_valid_accuracy]. *)
Definition update_patience (curr_patience : Z) (best_valid_accuracy : float)
    (action_accuracy : float) : Z * float :=
  if PrimFloat.ltb action_accuracy best_valid_accuracy
  then (curr_patience - 1, best_valid_accuracy)
  else ((if decide (curr_patience ≠ val_patience cfg)
         then val_patience cfg else curr_patience),
        action_accuracy).

(** How the epoch loop ended: by [break], or through its [else] branch. *)
Inductive TrainExit : Type :=
| PatienceOver
| MaxEpochsEncountered.

(** The loop variables at the end of one iteration, which the loop
    reports by its prints. *)
Record EpochLog : Type := {
  action_accuracy : float;
  curr_patience : Z;
  best_valid_accuracy : float;
}.

Fixpoint train_epochs (data : Data) (epochs_left : nat) (b : Bot)
    (patience : Z) (best : float) : Result (Bot * (TrainExit * list EpochLog)) :=
  match epochs_left with
  | O => Ok (b, (MaxEpochsEncountered, []))
  | S epochs_left' =>
      ep ← train_epoch data b;
      let upd := update_patience patience best ep.2 in
      let entry := {| action_accuracy := ep.2; curr_patience := upd.1;
                      best_valid_accuracy := upd.2 |} in
      if upd.1 <? 1
      then Ok (ep.1, (PatienceOver, [entry]))
      else r ← train_epochs data epochs_left' ep.1 upd.1 upd.2;
           Ok (r.1, (r.2.1, entry :: r.2.2))
  end.

Definition train (b : Bot) (data : Data)
    : Result (Bot * option (TrainExit * list EpochLog)) :=
  check_attr_true (train_now cfg) (λ b,
    if negb (network_train_now cfg) then Raise ConfigError
    else
      r ← train_epochs data (num_epochs cfg) b (val_patience cfg) 0%float;
      Ok (save r.1, Some r.2)) b.

(** *** Inference *)

Definition _infer (b : Bot) (context : string)
    (db_result' : option (gmap string Py.value)) (prob : bool) : Result (Bot * string) :=
  let enc := _encode_context b context db_result' in
  let b := enc.1 in
  mask ← _action_mask b;
  let probs := network_infer cfg (network b) enc.2 mask in
  let b := set_network b (network b ++ [NetInfer enc.2 mask]) in
  pred_id ← Np.argmax probs;
  let b := store_db_result b db_result' in
  (* one-hot encoding seems to work better then probabilities *)
  b ← (if prob then Ok (set_prev_action b probs) else force_prev_action b pred_id);
  response ← _decode_response b (Z.of_nat pred_id);
  Ok (b, response).

Definition _infer_dialog (b : Bot) (contexts : list Ctx.t) : Result (Bot * list string) :=
  for_each (λ st context,
      b ← match Ctx.prev_resp_act context with
          | Some prev_resp_act =>
              action_id ← _encode_response prev_resp_act;
              (* previous action is teacher-forced *)
              force_prev_action st.1 action_id
          | None => Ok st.1
          end;
      r ← _infer b (Ctx.text context) (Ctx.db_result context) false;
      Ok (r.1, st.2 ++ [r.2]))
    contexts (reset b, []).

Definition infer_on_batch (b : Bot) (xs : list (list Ctx.t))
    : Result (Bot * list (list string)) :=
  for_each (λ st x,
      r ← _infer_dialog st.1 x;
      Ok (r.1, st.2 ++ [r.2]))
    xs (b, []).

(** The argument of [infer]: a string, or a batch of dialogs. *)
Inductive InferArg : Type :=
| OfStr (x : string)
| OfBatch (xs : list (list Ctx.t)).

Inductive InferResult : Type :=
| Response (r : string)
| Responses (rs : list (list string)).

Definition infer (b : Bot) (x : InferArg) : Result (Bot * InferResult) :=
  match x with
  | OfStr x => r ← _infer b x None false; Ok (r.1, Response r.2)
  | OfBatch xs => r ← infer_on_batch b xs; Ok (r.1, Responses r.2)
  end.

(** *** Notions the properties are stated with *)

(** Whether the mask loop zeroes the entry of a template. *)
Definition masked (b : Bot) (t : template) : bool :=
  existsb (entity_unknown b) (Py.findall "#{}" (template_str t)).

(** The previous-action memory turn [t] of a dialog reads: the memory the
    dialog starts with at the first turn, and afterwards the one-hot vector
    of the action of the turn before. *)
Definition memory_at (start : list float) (d_actions : list nat) (t : nat) : list float :=
  match t with
  | O => start
  | S t' => from_option (onehot n_actions) [] (d_actions !! t')
  end.

(** The database result stored after the turns [contexts], when [stored]
    was stored before them: each turn replaces it only by a result that is
    not [None]. *)
Definition stored_db (stored : option (gmap string Py.value)) (contexts : list Ctx.t)
    : option (gmap string Py.value) :=
  foldl (λ stored c, from_option Some stored (Ctx.db_result c)) stored contexts.

(** The network call of the turns of a dialog: one [infer] call per
    turn, on features encoded from a bot whose memory has one entry per
    action. *)
Definition turn_call (c : Ctx.t) (call : NetCall) : Prop :=
  ∃ bt mask,
    call = NetInfer (_encode_context bt (Ctx.text c) (Ctx.db_result c)).2 mask
    ∧ length (prev_action bt) = n_actions.

(** The response labels of a corpus are known: every label the training
    pass of an epoch encodes is in the action list. *)
Definition labels_known (data : Data) : Prop :=
  Forall (λ batch : Batch,
            Forall (λ dialog : list Ctx.t * list Resp.t,
                      Forall (λ turn : Ctx.t * Resp.t, Resp.act turn.2 ∈ actions)
                             (Py.zip dialog.1 dialog.2))
                   (Py.zip batch.1 batch.2))
         (data 1%nat "train" false).

(** The length of a feature vector, for collaborators that return vectors
    of the lengths [n_bow], [n_emb], [n_intent] and [n_state]. *)
Definition width (n_bow n_emb n_intent n_state : nat) : nat :=
  n_bow + (if embedder cfg is Some _ then n_emb else 0)
  + (if intent_classifier cfg is Some _ then n_intent else 0)
  + n_state + 2 + n_actions.

(** The patience rule in the words of the specification, on the loop
    variables logged at the end of each epoch: entered with patience [p]
    and best accuracy [best], an epoch whose validation accuracy is
    strictly less than the best so far decrements the patience and keeps
    the best; any other epoch resets the patience to its configured
    maximum and makes its accuracy the best. *)
Fixpoint patience_rule (p : Z) (best : float) (log : list EpochLog) : Prop :=
  match log with
  | [] => True
  | e :: log' =>
      (if PrimFloat.ltb (action_accuracy e) best
       then curr_patience e = p - 1 ∧ best_valid_accuracy e = best
       else curr_patience e = val_patience cfg
            ∧ best_valid_accuracy e = action_accuracy e)
      ∧ patience_rule (curr_patience e) (best_valid_accuracy e) log'
  end.

(** The previous-action memory as the public paths keep it: all zeros,
    or the one-hot vector of an action. *)
Definition memory_ok (v : list float) : Prop :=
  v = Np.zeros n_actions ∨ ∃ a, (a < n_actions)%nat ∧ v = onehot n_actions a.

(** What the turns of an inference dialog read and submit.  The network has
    received [net], the memory is [memory] and the stored database result is
    [stored] when the turns [contexts] begin; [calls] are the network calls
    of these turns.  A turn with a [prev_resp_act] reads the one-hot vector
    of that label, any other turn the memory as it is; its features end with
    the two context flags and the memory it reads; and the memory it leaves
    is the one-hot vector of the action the network answers with. *)
Fixpoint infer_reads (net : list NetCall) (memory : list float)
    (stored : option (gmap string Py.value)) (contexts : list Ctx.t)
    (calls : list NetCall) : Prop :=
  match contexts, calls with
  | [], [] => True
  | c :: contexts', NetInfer features mask :: calls' =>
      ∃ memory' pred pre,
        match Ctx.prev_resp_act c with
        | Some label =>
            ∃ a, _encode_response label = Ok a ∧ memory' = onehot n_actions a
        | None => memory' = memory
        end
        ∧ features = pre ++ [is_empty_dict (Ctx.db_result c); is_empty_dict stored]
                         ++ memory'
        ∧ Np.argmax (network_infer cfg net features mask) = Ok pred
        ∧ (pred < n_actions)%nat
        ∧ infer_reads (net ++ [NetInfer features mask]) (onehot n_actions pred)
                      (from_option Some stored (Ctx.db_result c)) contexts' calls'
  | _, _ => False
  end.

(** The network calls of a training batch: for each dialog a [reset_state]
    call and the [train] call on its turns. *)
Definition batch_calls (ds : list DialogTurns) : list NetCall :=
  concat (map (λ d, [NetResetState; NetTrain (d_features d) (d_actions d) (d_masks d)])
              ds).

End GoalOrientedBot.

Arguments _encode_context : simpl never.
Arguments _action_mask : simpl never.
Arguments store_db_result : simpl never.

(** ** A concrete configuration

    Instances of the collaborators, small enough to run the methods on. *)

(** Modelled from the spec: the tracker class is defined in
    [models/trackers]; its state maps slot names to values, [update_state]
    records the slot values of a turn over the earlier ones, [reset_state]
    empties it, and [infer] gives one feature per tracked slot. *)
Definition slot_tracker (slot_names : list string) : TrackerI := {|
  tracker_state := gmap string string;
  reset_state := λ _, ∅;
  update_state := λ st slots, slots ∪ st;
  tracker_infer := λ st,
    map (λ name, if decide (is_Some (st !! name)) then 1%float else 0%float) slot_names;
  get_state := λ st, st;
|}.

(** Modelled from the spec: the template classes are defined in
    [go_bot/templates.py]; a template is a parametrized text pattern
    referencing zero or more slot names.  A pattern is a sequence of literal
    pieces and slot placeholders, a placeholder being written [#name]. *)
Inductive Piece : Type :=
| Lit (s : string)
| Slot (name : string).

Definition piece_str (p : Piece) : string :=
  match p with
  | Lit s => s
  | Slot name => "#" +:+ name
  end.

Definition piece_text (slots : gmap string string) (p : Piece) : string :=
  match p with
  | Lit s => s
  | Slot name => default ("#" +:+ name) (slots !! name)
  end.

(** The slot names a pattern references. *)
Definition template_slots (t : list Piece) : list string :=
  omap (λ p, match p with Slot name => Some name | Lit _ => None end) t.

Definition pattern_template : TemplateI := {|
  template := list Piece;
  template_str := λ t, String.concat "" (map piece_str t);
  generate_text := λ t slots, String.concat "" (map (piece_text slots) t);
|}.

Module Demo.

#[local] Existing Instance pattern_template.
#[local] Instance tracker_inst : TrackerI := slot_tracker ["food"; "area"].

Definition untrained (_ : list NetCall) (_ : list (list float)) (d_actions : list nat)
    (_ : list (list float)) : float * list nat :=
  (0.5%float, d_actions).

(** A network that prefers the last action its mask allows. *)
Definition last_allowed (_ : list NetCall) (_ : list float) (mask : list float)
    : list float :=
  imap (λ i x, PrimFloat.mul x (PrimFloat.of_uint63 (Uint63.of_Z (Z.of_nat (S i))))) mask.

Definition cfg : GoalOrientedBotConfig := {|
  templates :=
    [("bye", [Lit "Goodbye"]);
     ("inform_food", [Lit "I have "; Slot "food"; Lit " food"]);
     ("welcome", [Lit "Hello"])];
  use_action_mask := true;
  tokenizer := λ s, [s];
  bow_encoder := λ s, [if String.prefix "hi" s then 1%float else 0%float; 0.25%float];
  embedder := None;
  intent_classifier := Some (λ _, [0.75%float; 0.25%float]);
  slot_filler := Some (λ s, if String.prefix "hi" s then ∅ else {[ "area" := "north" ]});
  num_epochs := 5;
  val_patience := 2;
  train_now := true;
  network_train_now := true;
  network_train := untrained;
  network_infer := last_allowed;
|}.

Definition bot : Bot := init cfg (∅ : gmap string string).

Definition turn1 : Ctx.t :=
  {| Ctx.text := "hi"; Ctx.db_result := Some {[ "x" := Py.VInt 1 ]}; Ctx.prev_resp_act := None |}.
Definition turn2 : Ctx.t :=
  {| Ctx.text := "bye now"; Ctx.db_result := None; Ctx.prev_resp_act := Some "welcome" |}.
Definition resp1 : Resp.t := {| Resp.act := "welcome"; Resp.text := "Hello" |}.
Definition resp2 : Resp.t := {| Resp.act := "bye"; Resp.text := "Goodbye" |}.

(** A corpus of one two-turn dialog, the same in every split. *)
Definition data : Data := λ _ _ _, [([[turn1; turn2]], [[resp1; resp2]])].

(** An evaluation pass that resets the bot and reports the accuracies
    0.5, 0.4, 0.3 at the first, second and third validation pass (each
    epoch resets three times before its validation pass ends). *)
Definition evaluate (_ : list Batch) (b : Bot) : Bot * float :=
  let b := reset cfg b in
  (b, nth (length (List.filter is_reset_call (network b)) `div` 3 - 1)%nat
          [0.5%float; 0.4%float; 0.3%float] 0%float).

(** The bot after a first inference dialog: it holds a database result,
    a non-zero memory and a tracked slot. *)
Definition used_bot : Bot :=
  (result_or (bot, []) (_infer_dialog cfg bot [turn1; turn2])).1.

(** [infer] on a string, by that bot. *)
Definition answered : Bot * InferResult :=
  result_or (used_bot, Response "") (infer cfg used_bot (OfStr "hi again")).

(** The state in which [train_on_batch] enters the turn loop of a dialog,
    and the turn loop of the corpus dialog from there. *)
Definition start : Bot := set_metrics (reset cfg bot) (metrics bot).

Definition trained : Bot * DialogTurns :=
  result_or (start, no_turns)
            (train_dialog_turns cfg start ([turn1; turn2], [resp1; resp2])).

(** [train] on the corpus. *)
Definition finished : Bot * option (TrainExit * list EpochLog) :=
  result_or (bot, None) (train cfg evaluate bot data).

(** The loop variables at the end of the three epochs [train] runs on
    the corpus. *)
Definition trained_log : list EpochLog :=
  [ {| action_accuracy := 0.5; curr_patience := 2; best_valid_accuracy := 0.5 |};
    {| action_accuracy := 0.4; curr_patience := 1; best_valid_accuracy := 0.5 |};
    {| action_accuracy := 0.3; curr_patience := 0; best_valid_accuracy := 0.5 |} ].

End Demo.

(** Further runs on the concrete configuration, and two variants of it. *)
Module Runs.

#[local] Existing Instance pattern_template.
#[local] Existing Instance Demo.tracker_inst.

(** A batch of two dialogs. *)
Definition batch : Batch :=
  ([[Demo.turn1; Demo.turn2]; [Demo.turn1]], [[Demo.resp1; Demo.resp2]; [Demo.resp1]]).

(** A training dialog of [train] on the corpus dialog. *)
Definition counted : Bot :=
  result_or Demo.bot
    (train_dialog Demo.cfg Demo.bot ([Demo.turn1; Demo.turn2], [Demo.resp1; Demo.resp2])).

(** Inference on the corpus dialog, on its first turn, and on a batch. *)
Definition dialog_answers : Bot * list string :=
  result_or (Demo.bot, []) (_infer_dialog Demo.cfg Demo.bot [Demo.turn1; Demo.turn2]).

Definition first_answer : Bot * list string :=
  result_or (Demo.bot, []) (_infer_dialog Demo.cfg Demo.bot [Demo.turn1]).

Definition batch_answers : Bot * InferResult :=
  result_or (Demo.bot, Responses [])
    (infer Demo.cfg Demo.bot (OfBatch [[Demo.turn1; Demo.turn2]; [Demo.turn1]])).

(** A turn whose [prev_resp_act] is no action label. *)
Definition stray : Ctx.t :=
  {| Ctx.text := "hm"; Ctx.db_result := None; Ctx.prev_resp_act := Some "thanks" |}.

(** A bot that differs from the initial one in its database result and
    its memory only. *)
Definition stale : Bot :=
  set_db_result (set_prev_action Demo.bot [0%float; 1%float; 0%float])
                (Some {[ "x" := Py.VInt 1 ]}).

(** The configuration with no patience. *)
Definition impatient : GoalOrientedBotConfig := {|
  templates := templates Demo.cfg;
  use_action_mask := use_action_mask Demo.cfg;
  tokenizer := tokenizer Demo.cfg;
  bow_encoder := bow_encoder Demo.cfg;
  embedder := embedder Demo.cfg;
  intent_classifier := intent_classifier Demo.cfg;
  slot_filler := slot_filler Demo.cfg;
  num_epochs := num_epochs Demo.cfg;
  val_patience := 0;
  train_now := train_now Demo.cfg;
  network_train_now := network_train_now Demo.cfg;
  network_train := network_train Demo.cfg;
  network_infer := network_infer Demo.cfg;
|}.

Definition hasty : Bot * option (TrainExit * list EpochLog) :=
  result_or (Demo.bot, None) (train impatient Demo.evaluate Demo.bot Demo.data).

(** A configuration with a template whose text contains the pattern of the
    mask loop itself, and a turn whose database result has that text as a
    key. *)
Definition literal : GoalOrientedBotConfig := {|
  templates := [("bye", [Lit "Goodbye"]); ("raw", [Lit "#{}"])];
  use_action_mask := true;
  tokenizer := tokenizer Demo.cfg;
  bow_encoder := bow_encoder Demo.cfg;
  embedder := embedder Demo.cfg;
  intent_classifier := intent_classifier Demo.cfg;
  slot_filler := slot_filler Demo.cfg;
  num_epochs := num_epochs Demo.cfg;
  val_patience := val_patience Demo.cfg;
  train_now := train_now Demo.cfg;
  network_train_now := network_train_now Demo.cfg;
  network_train := network_train Demo.cfg;
  network_infer := network_infer Demo.cfg;
|}.

Definition literal_bot : Bot := init literal (∅ : gmap string string).

Definition lookup_turn : Ctx.t :=
  {| Ctx.text := "hi"; Ctx.db_result := Some {[ "#{}" := Py.VInt 1 ]};
     Ctx.prev_resp_act := None |}.
Definition raw_resp : Resp.t := {| Resp.act := "raw"; Resp.text := "#{}" |}.

Definition turn_trained : Bot * DialogTurns :=
  result_or (literal_bot, no_turns)
            (train_turn literal (literal_bot, no_turns) (lookup_turn, raw_resp)).

Definition turn_answered : Bot * string :=
  result_or (literal_bot, "")
            (_infer literal literal_bot (Ctx.text lookup_turn) (Ctx.db_result lookup_turn)
                    false).

End Runs.

(** * Properties *)

(** ** The exception monad and the Python operations *)

Lemma bind_ret {A B} (a : A) (f : A → Result B) : Ok a ≫= f = f a.
Proof. reflexivity. Qed.

Lemma bind_intro {A B} (m : Result A) (f : A → Result B) (a : A) (r : B) :
  m = Ok a → f a = Ok r → m ≫= f = Ok r.
Proof. by intros -> <-. Qed.

Lemma bind_Ok {A B} (m : Result A) (f : A → Result B) (r : B) :
  m ≫= f = Ok r → ∃ a, m = Ok a ∧ f a = Ok r.
Proof. destruct m as [a|e]; simpl; [eauto | discriminate]. Qed.

(** Undo one monadic step of a hypothesis [m ≫= f = Ok r]. *)
Ltac inv_bind H :=
  let a := fresh "a" in
  let Ha := fresh "Ha" in
  apply bind_Ok in H; destruct H as (a & Ha & H).

Lemma Ok_pair_inj {A B} (a a' : A) (b b' : B) :
  Ok (a, b) = Ok (a', b') → a = a' ∧ b = b'.
Proof. by intros [= -> ->]. Qed.

(** Case on the first step of a hypothesis [m ≫= f = Ok r]. *)
Ltac step_bind H :=
  match type of H with
  | ?m ≫= _ = Ok _ =>
      let a := fresh "a" in
      let Ha := fresh "Ha" in
      destruct m as [a|?] eqn:Ha; [rewrite bind_ret in H | discriminate H]
  end.

Lemma for_each_app {A S} (body : S → A → Result S) (xs ys : list A) (st : S) :
  for_each body (xs ++ ys) st = for_each body xs st ≫= for_each body ys.
Proof.
  revert st. induction xs as [|x xs IH]; intros st; simpl; [done|].
  destruct (body st x) as [st'|e]; simpl; [apply IH | done].
Qed.

(** A loop whose body never raises on states satisfying a preserved
    invariant runs to its end. *)
Lemma for_each_invariant {A S} (I : S → Prop) (P : A → Prop)
    (body : S → A → Result S) (xs : list A) (st : S) :
  (∀ st x, I st → P x → ∃ st', body st x = Ok st' ∧ I st') →
  I st → Forall P xs →
  ∃ st', for_each body xs st = Ok st' ∧ I st'.
Proof.
  intros Hbody. revert st. induction xs as [|x xs IH]; intros st HI HP; simpl.
  - eauto.
  - inversion HP as [|? ? Hx Hxs]; subst.
    destruct (Hbody st x HI Hx) as (st' & -> & HI'). simpl. by apply IH.
Qed.

Lemma zip_length {A B} (xs : list A) (ys : list B) :
  length (Py.zip xs ys) = (length xs `min` length ys)%nat.
Proof.
  revert ys. induction xs as [|x xs IH]; intros [|y ys]; simpl; auto.
Qed.

Lemma zip_take {A B} (xs : list A) (ys : list B) (n : nat) :
  Py.zip (take n xs) (take n ys) = take n (Py.zip xs ys).
Proof.
  revert xs ys. induction n as [|n IH]; intros [|x xs] [|y ys]; simpl;
    rewrite ?IH; done.
Qed.

Lemma zip_lookup {A B} (xs : list A) (ys : list B) (i : nat) (x : A) (y : B) :
  Py.zip xs ys !! i = Some (x, y) ↔ xs !! i = Some x ∧ ys !! i = Some y.
Proof.
  revert ys i. induction xs as [|x' xs IH]; intros [|y' ys] [|i]; simpl;
    try (split; [done | intros [? ?]; done]).
  - split; [intros [= -> ->]; done | intros [[= ->] [= ->]]; done].
  - apply IH.
Qed.

Lemma index_from_Ok (x : string) (l : list string) (i j : nat) :
  Py.index_from x l i = Ok j ↔
  (i ≤ j)%nat ∧ l !! (j - i)%nat = Some x ∧ ∀ k, (k < j - i)%nat → l !! k ≠ Some x.
Proof.
  revert i. induction l as [|y l IH]; intros i; simpl.
  - split; [done | intros (_ & ? & _); done].
  - destruct (String.eqb_spec y x) as [->|Hne].
    + split.
      * intros [= <-]. rewrite Nat.sub_diag. repeat split; [lia | intros; lia].
      * intros (Hle & Hj & Hfirst). f_equal.
        destruct (decide (j - i = 0)%nat) as [|Hpos]; [lia|].
        exfalso. apply (Hfirst 0%nat); [lia | done].
    + rewrite IH. split.
      * intros (Hle & Hj & Hfirst). split; [lia|].
        replace (j - i)%nat with (S (j - S i)) by lia. split; [done|].
        intros [|k] Hk; simpl; [congruence | apply Hfirst; lia].
      * intros (Hle & Hj & Hfirst).
        destruct (j - i)%nat as [|d] eqn:Hd; simpl in Hj; [congruence|].
        replace (j - S i)%nat with d by lia. repeat split; [lia | done |].
        intros k Hk. apply (Hfirst (S k)). lia.
Qed.

Lemma index_from_Raise (x : string) (l : list string) (i : nat) (e : PyError) :
  Py.index_from x l i = Raise e ↔ e = ValueError ∧ x ∉ l.
Proof.
  revert i. induction l as [|y l IH]; intros i; simpl.
  - split; [intros [= <-]; split; [done | apply not_elem_of_nil] | intros [-> _]; done].
  - destruct (String.eqb_spec y x) as [->|Hne].
    + split; [done | intros [_ Hnot]; exfalso; apply Hnot; left].
    + rewrite IH, not_elem_of_cons. split; [intros [-> ?] | intros [-> [_ ?]]]; auto.
Qed.

Lemma getitem_nat {A} (l : list A) (i : nat) (a : A) :
  l !! i = Some a → Py.getitem l (Z.of_nat i) = Ok a.
Proof.
  intros H. pose proof (lookup_lt_Some _ _ _ H) as Hlt. unfold Py.getitem.
  destruct (Z.ltb_spec (Z.of_nat i) 0) as [?|_]; [lia|].
  destruct (Z.leb_spec 0 (Z.of_nat i)) as [_|?]; [|lia].
  destruct (Z.ltb_spec (Z.of_nat i) (Z.of_nat (length l))) as [_|?]; [|lia].
  simpl. by rewrite Nat2Z.id, H.
Qed.

Lemma getitem_from_end {A} (l : list A) (i : nat) (a : A) :
  l !! i = Some a → Py.getitem l (Z.of_nat i - Z.of_nat (length l)) = Ok a.
Proof.
  intros H. pose proof (lookup_lt_Some _ _ _ H) as Hlt. unfold Py.getitem.
  destruct (Z.ltb_spec (Z.of_nat i - Z.of_nat (length l)) 0) as [_|?]; [|lia].
  replace (Z.of_nat i - Z.of_nat (length l) + Z.of_nat (length l)) with (Z.of_nat i) by lia.
  destruct (Z.leb_spec 0 (Z.of_nat i)) as [_|?]; [|lia].
  destruct (Z.ltb_spec (Z.of_nat i) (Z.of_nat (length l))) as [_|?]; [|lia].
  simpl. by rewrite Nat2Z.id, H.
Qed.

Lemma getitem_Raise {A} (l : list A) (i : Z) :
  (∃ e, Py.getitem l i = Raise e) ↔
  ¬ (- Z.of_nat (length l) ≤ i < Z.of_nat (length l)).
Proof.
  unfold Py.getitem.
  destruct (Z.ltb_spec i 0) as [Hneg|Hpos];
    match goal with |- context [(0 <=? ?j) && _] =>
      destruct (Z.leb_spec 0 j) as [Hlo|Hlo];
      destruct (Z.ltb_spec j (Z.of_nat (length l))) as [Hhi|Hhi]; simpl
    end;
    try (split; [intros _; lia | eauto]).
  all: match goal with |- context [?l' !! ?k] =>
         destruct (lookup_lt_is_Some_2 l' k) as [a ->]; [lia|]
       end.
  all: split; [intros [e [=]] | lia].
Qed.

Lemma findall_from_pat (pat : string) (skip : nat) (s : string) :
  Forall (λ entity, entity = pat) (Py.findall_from pat skip s).
Proof.
  revert skip. induction s as [|c s IH]; intros skip; cbn [Py.findall_from];
    [constructor|].
  destruct skip as [|k]; [|apply IH].
  destruct (String.prefix pat (String c s)); [constructor; [done|] |]; apply IH.
Qed.

Lemma app_assoc4 {A} (l1 l2 l3 l4 l5 : list A) :
  l1 ++ l2 ++ l3 ++ l4 ++ l5 = (l1 ++ l2 ++ l3 ++ l4) ++ l5.
Proof. by rewrite <- !app_assoc. Qed.

Lemma imul_length (a : list float) (c : float) : length (Np.imul a c) = length a.
Proof. apply length_map. Qed.

Lemma setitem_Ok {A} (l : list A) (i : nat) (v : A) :
  (i < length l)%nat → Py.setitem l i v = Ok (<[i := v]> l).
Proof. intros H. unfold Py.setitem. by rewrite decide_True. Qed.

Lemma setitem_inv {A} (l l' : list A) (i : nat) (v : A) :
  Py.setitem l i v = Ok l' → (i < length l)%nat ∧ l' = <[i := v]> l.
Proof. unfold Py.setitem. case_decide; [intros [= <-]; done | done]. Qed.

Lemma imul_zero_one (v : list float) :
  zero_one v → Np.imul v 0%float = replicate (length v) 0%float.
Proof.
  induction 1 as [|x v [-> | ->] _ IH]; simpl; [done | |]; by rewrite IH.
Qed.

Lemma zero_one_zeros (n : nat) : zero_one (Np.zeros n).
Proof. apply Forall_replicate. by left. Qed.

Lemma zero_one_onehot (n a : nat) : zero_one (onehot n a).
Proof.
  apply Forall_insert; [apply Forall_replicate; by left | by right].
Qed.

Lemma onehot_length (n a : nat) : length (onehot n a) = n.
Proof. unfold onehot. by rewrite length_insert, length_replicate. Qed.

Section Properties.

Context {Tr : TrackerI} {Tm : TemplateI}.
Variable cfg : GoalOrientedBotConfig.

Lemma actions_length : length (actions cfg) = n_actions cfg.
Proof. apply length_map. Qed.

Lemma templates_list_length : length (templates_list cfg) = n_actions cfg.
Proof. apply length_map. Qed.

Lemma templates_lookup (i : nat) (label : string) (t : template) :
  templates cfg !! i = Some (label, t) ↔
  actions cfg !! i = Some label ∧ templates_list cfg !! i = Some t.
Proof.
  unfold actions, templates_list. rewrite !list_lookup_fmap.
  destruct (templates cfg !! i) as [[l' t']|]; simpl;
    [|split; [discriminate | intros [[=] _]]].
  split; [intros [= -> ->]; done | intros [[= ->] [= ->]]; done].
Qed.

Lemma encode_response_Ok (label : string) (i : nat) :
  _encode_response cfg label = Ok i ↔
  actions cfg !! i = Some label ∧ ∀ k, (k < i)%nat → actions cfg !! k ≠ Some label.
Proof.
  unfold _encode_response, Py.index. rewrite index_from_Ok, Nat.sub_0_r.
  split; [intros (_ & ? & ?); done | intros [? ?]; repeat split; [lia | done | done]].
Qed.

Lemma encode_response_lt (label : string) (i : nat) :
  _encode_response cfg label = Ok i → (i < n_actions cfg)%nat.
Proof.
  rewrite encode_response_Ok. intros [H _].
  rewrite <- actions_length. by eapply lookup_lt_Some.
Qed.

Lemma encode_response_known (label : string) :
  label ∈ actions cfg → ∃ i, _encode_response cfg label = Ok i.
Proof.
  intros Hin. destruct (_encode_response cfg label) as [i|e] eqn:E; [eauto|].
  apply index_from_Raise in E. by destruct E.
Qed.

(** *** The action mask *)

Lemma mask_entities (b : Bot) (a_id : nat) (entities : list string) (mask : list float) :
  (a_id < length mask)%nat →
  for_each (λ action_mask entity,
      if entity_unknown b entity
      then Py.setitem action_mask a_id 0%float
      else Ok action_mask) entities mask
  = Ok (if existsb (entity_unknown b) entities then <[a_id := 0%float]> mask else mask).
Proof.
  revert mask. induction entities as [|e es IH]; intros mask Hlt; simpl; [done|].
  destruct (entity_unknown b e); simpl.
  - rewrite setitem_Ok by done. simpl. rewrite IH by (by rewrite length_insert).
    rewrite list_insert_insert_eq. by destruct (existsb _ es).
  - by apply IH.
Qed.

Lemma mask_actions (b : Bot) (m k : nat) (mask : list float) :
  (k + m ≤ n_actions cfg)%nat → length mask = n_actions cfg →
  ∃ mask',
    for_each (λ action_mask a_id,
        tmpl ← Py.getitem (templates_list cfg) (Z.of_nat a_id);
        for_each (λ action_mask entity,
            if entity_unknown b entity
            then Py.setitem action_mask a_id 0%float
            else Ok action_mask)
          (Py.findall "#{}" (template_str tmpl)) action_mask)
      (seq k m) mask = Ok mask'
    ∧ length mask' = n_actions cfg
    ∧ ∀ a t, templates_list cfg !! a = Some t →
        mask' !! a = if decide (k ≤ a < k + m)%nat
                     then (if masked b t then Some 0%float else mask !! a)
                     else mask !! a.
Proof.
  revert k mask. induction m as [|m IH]; intros k mask Hk Hlen; simpl.
  - exists mask. repeat split; [done|]. intros a t _. case_decide; [lia | done].
  - destruct (lookup_lt_is_Some_2 (templates_list cfg) k) as [tk Htk];
      [rewrite templates_list_length; lia|].
    rewrite (getitem_nat _ _ _ Htk). simpl. rewrite mask_entities by lia.
    set (mask1 := if existsb _ _ then _ else _).
    assert (length mask1 = n_actions cfg) as Hlen1.
    { subst mask1. destruct (existsb _ _); by rewrite ?length_insert. }
    rewrite bind_ret.
    destruct (IH (S k) mask1) as (mask' & -> & Hlen' & Hent); [lia | done |].
    exists mask'. repeat split; [done|]. intros a t Ha. rewrite (Hent a t Ha).
    assert (mask1 !! a = if decide (a = k)
                         then (if masked b tk then Some 0%float else mask !! a)
                         else mask !! a) as ->.
    { subst mask1. unfold masked. case_decide as Hak.
      - subst a. destruct (existsb _ _); [|done].
        apply list_lookup_insert_eq. lia.
      - destruct (existsb _ _); [|done]. by apply list_lookup_insert_ne. }
    repeat case_decide; try lia; try done.
    subst a. by simplify_eq.
Qed.

(** The mask never raises, has one entry per action, and its entry for a
    template is zero exactly when masking is on and the mask loop zeroes
    it. *)
Lemma action_mask_Ok (b : Bot) :
  ∃ mask,
    _action_mask cfg b = Ok mask
    ∧ length mask = n_actions cfg
    ∧ ∀ a t, templates_list cfg !! a = Some t →
        mask !! a = Some (if use_action_mask cfg && masked b t then 0%float else 1%float).
Proof.
  unfold _action_mask. destruct (use_action_mask cfg); simpl.
  - destruct (mask_actions b (n_actions cfg) 0 (Np.ones (n_actions cfg)))
      as (mask & -> & Hlen & Hent); [lia | apply length_replicate |].
    exists mask. repeat split; [done|]. intros a t Ha. rewrite (Hent a t Ha).
    pose proof (lookup_lt_Some _ _ _ Ha) as Hlt. rewrite templates_list_length in Hlt.
    rewrite decide_True by lia. destruct (masked b t); [done|].
    by apply lookup_replicate_2.
  - exists (Np.ones (n_actions cfg)). repeat split; [apply length_replicate|].
    intros a t Ha. pose proof (lookup_lt_Some _ _ _ Ha) as Hlt.
    rewrite templates_list_length in Hlt. by apply lookup_replicate_2.
Qed.

(** The only entity the mask loop ever sees is the text of its own
    pattern, so an entry is zero exactly when the template's text contains
    that text and it is the name of no known slot. *)
Lemma masked_literal (b : Bot) (t : template) :
  masked b t = true ↔
  Py.findall "#{}" (template_str t) ≠ [] ∧ entity_unknown b "#{}" = true.
Proof.
  unfold masked. pose proof (findall_from_pat "#{}" 0 (template_str t)) as Hall.
  fold (Py.findall "#{}" (template_str t)) in Hall.
  destruct (Py.findall "#{}" (template_str t)) as [|e es]; simpl.
  - split; [discriminate | intros [Hne _]; by destruct Hne].
  - inversion Hall as [|? ? He Hes]; subst.
    destruct (entity_unknown b "#{}") eqn:E; simpl; [done|].
    split; [|intros [_ ?]; done]. intros H. exfalso.
    induction Hes as [|e' es' He' _ IH]; simpl in H; [done|].
    subst e'. rewrite E in H. simpl in H. apply IH; [|done].
    by inversion Hall.
Qed.

(** *** Dialog state *)

(** Claim C6.  After [reset()] the previous-action memory is the zero
    vector of length [n_actions], the stored database result is [None], the
    tracker is the one its [reset_state] leaves, and the network has
    received a [reset_state] call after all its earlier calls. *)
Theorem reset_clears_dialog_state (b : Bot) :
  prev_action (reset cfg b) = Np.zeros (n_actions cfg)
  ∧ length (prev_action (reset cfg b)) = n_actions cfg
  ∧ Forall (λ x, x = 0%float) (prev_action (reset cfg b))
  ∧ db_result (reset cfg b) = None
  ∧ tracker (reset cfg b) = reset_state (tracker b)
  ∧ network (reset cfg b) = network b ++ [NetResetState].
Proof.
  repeat split.
  - apply length_replicate.
  - by apply Forall_replicate.
Qed.

(** *** The action codec *)

Lemma decode_response_nat (b : Bot) (i : nat) (t : template) :
  templates_list cfg !! i = Some t →
  _decode_response cfg b (Z.of_nat i) = Ok (generate_text t (response_slots b)).
Proof. intros H. unfold _decode_response. by rewrite (getitem_nat _ _ _ H). Qed.

(** Claim C2, as the code has it.  Encoding a label raises exactly when
    the label is not in the action list, and the exception is a
    [ValueError].  Decoding an index [i] raises exactly when [i] is outside
    [-n_actions, n_actions): an index in [0, n_actions) renders the template
    at that index, and a negative index down to [-n_actions] renders the
    template counted from the end of the list. *)
Theorem action_codec_failures (b : Bot) :
  (∀ label, (∃ e, _encode_response cfg label = Raise e) ↔ label ∉ actions cfg)
  ∧ (∀ label e, _encode_response cfg label = Raise e → e = ValueError)
  ∧ (∀ i : Z, (∃ e, _decode_response cfg b i = Raise e) ↔
              ¬ (- Z.of_nat (n_actions cfg) ≤ i < Z.of_nat (n_actions cfg)))
  ∧ (∀ (i : nat) (t : template), templates_list cfg !! i = Some t →
       _decode_response cfg b (Z.of_nat i) = Ok (generate_text t (response_slots b)))
  ∧ (∀ (i : nat) (t : template), templates_list cfg !! i = Some t →
       _decode_response cfg b (Z.of_nat i - Z.of_nat (n_actions cfg))
       = Ok (generate_text t (response_slots b))).
Proof.
  split; [|split; [|split; [|split]]].
  - intros label. unfold _encode_response, Py.index. split.
    + intros [e He]. by apply index_from_Raise in He as [_ ?].
    + intros Hnot. exists ValueError. by apply index_from_Raise.
  - intros label e He. by apply index_from_Raise in He as [? _].
  - intros i. rewrite <- templates_list_length, <- getitem_Raise.
    unfold _decode_response.
    destruct (Py.getitem (templates_list cfg) i) as [t|e]; simpl.
    + split; intros [e [=]].
    + split; eauto.
  - intros i t. apply decode_response_nat.
  - intros i t H. unfold _decode_response.
    rewrite <- templates_list_length. by rewrite (getitem_from_end _ _ _ H).
Qed.

(** Claim C8.  For a label of the action list, encoding gives the first
    position [i] at which the store holds the label, paired there with a
    template [t], and decoding [i] renders that template [t]. *)
Theorem encode_decode_roundtrip (b : Bot) (label : string) :
  label ∈ actions cfg →
  ∃ (i : nat) (t : template),
    _encode_response cfg label = Ok i
    ∧ templates cfg !! i = Some (label, t)
    ∧ (∀ k, (k < i)%nat → actions cfg !! k ≠ Some label)
    ∧ Py.getitem (templates_list cfg) (Z.of_nat i) = Ok t
    ∧ _decode_response cfg b (Z.of_nat i) = Ok (generate_text t (response_slots b)).
Proof.
  intros Hin. destruct (encode_response_known label Hin) as [i Hi].
  pose proof Hi as Hi'. apply encode_response_Ok in Hi' as [Hact Hfirst].
  destruct (lookup_lt_is_Some_2 (templates_list cfg) i) as [t Ht].
  { rewrite templates_list_length, <- actions_length. by eapply lookup_lt_Some. }
  exists i, t. repeat split; try done.
  - by apply templates_lookup.
  - by apply getitem_nat.
  - by apply decode_response_nat.
Qed.

(** *** The training turn *)

Lemma encode_context_frame (b : Bot) (text : string)
    (dbr : option (gmap string Py.value)) :
  let enc := _encode_context cfg b text dbr in
  db_result enc.1 = db_result b
  ∧ prev_action enc.1 = prev_action b
  ∧ network enc.1 = network b
  ∧ metrics enc.1 = metrics b.
Proof. unfold _encode_context. by destruct (slot_filler cfg). Qed.

Lemma encode_context_layout (b : Bot) (text : string)
    (dbr : option (gmap string Py.value)) :
  (_encode_context cfg b text dbr).2
  = bow_encoder cfg (tokenized cfg text)
    ++ from_option (λ embedder_infer, embedder_infer (tokenized cfg text)) [] (embedder cfg)
    ++ from_option (λ intent_infer, intent_infer (tokenized cfg text)) []
                   (intent_classifier cfg)
    ++ tracker_infer (tracker (_encode_context cfg b text dbr).1)
    ++ [is_empty_dict dbr; is_empty_dict (db_result b)]
    ++ prev_action b.
Proof.
  unfold _encode_context, Np.hstack, tokenized. simpl. rewrite app_nil_r.
  by destruct (slot_filler cfg), (embedder cfg), (intent_classifier cfg).
Qed.

Lemma encode_context_tracker (b : Bot) (text : string)
    (dbr : option (gmap string Py.value)) :
  tracker (_encode_context cfg b text dbr).1
  = from_option (λ slot_infer, update_state (tracker b) (slot_infer (tokenized cfg text)))
                (tracker b) (slot_filler cfg).
Proof. unfold _encode_context, tokenized. by destruct (slot_filler cfg). Qed.

Lemma encode_context_suffix (b : Bot) (text : string)
    (dbr : option (gmap string Py.value)) :
  prev_action b `suffix_of` (_encode_context cfg b text dbr).2.
Proof. rewrite encode_context_layout. by repeat apply suffix_app_r. Qed.

Lemma store_db_result_frame (b : Bot) (dbr : option (gmap string Py.value)) :
  db_result (store_db_result b dbr) = from_option Some (db_result b) dbr
  ∧ tracker (store_db_result b dbr) = tracker b
  ∧ prev_action (store_db_result b dbr) = prev_action b
  ∧ network (store_db_result b dbr) = network b
  ∧ metrics (store_db_result b dbr) = metrics b.
Proof. by destruct dbr. Qed.

Lemma force_prev_action_inv (b b' : Bot) (a : nat) :
  force_prev_action b a = Ok b' →
  (a < length (prev_action b))%nat
  ∧ b' = set_prev_action b (<[a := 1%float]> (Np.imul (prev_action b) 0%float)).
Proof.
  unfold force_prev_action. intros H. inv_bind H.
  apply setitem_inv in Ha as [Hlt ->]. rewrite imul_length in Hlt.
  by injection H as <-.
Qed.

Lemma force_prev_action_Ok (b : Bot) (a : nat) :
  (a < length (prev_action b))%nat →
  force_prev_action b a
  = Ok (set_prev_action b (<[a := 1%float]> (Np.imul (prev_action b) 0%float))).
Proof.
  intros Hlt. unfold force_prev_action.
  by rewrite setitem_Ok by (by rewrite imul_length).
Qed.

Lemma force_zero_one (v : list float) (a : nat) :
  zero_one v → <[a := 1%float]> (Np.imul v 0%float) = onehot (length v) a.
Proof. intros H. by rewrite (imul_zero_one v H). Qed.

(** What one successful training turn does. *)
Lemma train_turn_inv (st st' : Bot * DialogTurns) (c : Ctx.t) (r : Resp.t) :
  train_turn cfg st (c, r) = Ok st' →
  let enc := _encode_context cfg st.1 (Ctx.text c) (Ctx.db_result c) in
  ∃ (a : nat) (mask : list float),
    _encode_response cfg (Resp.act r) = Ok a
    ∧ (a < length (prev_action st.1))%nat
    ∧ st'.1 = set_prev_action (store_db_result enc.1 (Ctx.db_result c))
                (<[a := 1%float]> (Np.imul (prev_action st.1) 0%float))
    ∧ _action_mask cfg st'.1 = Ok mask
    ∧ st'.2 = {| d_features := d_features st.2 ++ [enc.2];
                 d_actions := d_actions st.2 ++ [a];
                 d_masks := d_masks st.2 ++ [mask] |}.
Proof.
  unfold train_turn. cbn [fst snd]. intros H.
  inv_bind H. rename a into a_id, Ha into Henc.
  inv_bind H. rename a into b1, Ha into Hforce.
  inv_bind H. rename a into mask, Ha into Hmask.
  injection H as <-. cbn [fst snd].
  apply force_prev_action_inv in Hforce as [Hlt ->].
  destruct (store_db_result_frame
              (_encode_context cfg st.1 (Ctx.text c) (Ctx.db_result c)).1
              (Ctx.db_result c)) as (_ & _ & Hpa & _).
  destruct (encode_context_frame st.1 (Ctx.text c) (Ctx.db_result c))
    as (_ & Hpa' & _).
  rewrite Hpa, Hpa' in *. by exists a_id, mask.
Qed.

(** A training turn with a known action label, on a memory with one entry
    per action, does not raise. *)
Lemma train_turn_Ok (st : Bot * DialogTurns) (c : Ctx.t) (r : Resp.t) :
  Resp.act r ∈ actions cfg →
  length (prev_action st.1) = n_actions cfg →
  ∃ st', train_turn cfg st (c, r) = Ok st'
         ∧ length (prev_action st'.1) = n_actions cfg.
Proof.
  intros Hin Hlen. destruct (encode_response_known _ Hin) as [a Ha].
  pose proof (encode_response_lt _ _ Ha) as Hlt.
  unfold train_turn. cbn [fst snd]. rewrite Ha, bind_ret.
  destruct (store_db_result_frame
              (_encode_context cfg st.1 (Ctx.text c) (Ctx.db_result c)).1
              (Ctx.db_result c)) as (_ & _ & Hpa & _).
  destruct (encode_context_frame st.1 (Ctx.text c) (Ctx.db_result c))
    as (_ & Hpa' & _).
  rewrite force_prev_action_Ok by (rewrite Hpa, Hpa'; lia).
  rewrite bind_ret.
  match goal with |- context [_action_mask cfg ?b] =>
    destruct (action_mask_Ok b) as (mask & -> & _)
  end.
  rewrite bind_ret. eexists. split; [done|]. cbn [fst prev_action set_prev_action].
  by rewrite length_insert, imul_length, Hpa, Hpa'.
Qed.

Lemma train_dialog_turns_Ok (b0 : Bot) (contexts : list Ctx.t)
    (responses : list Resp.t) :
  Forall (λ turn, Resp.act turn.2 ∈ actions cfg) (Py.zip contexts responses) →
  length (prev_action b0) = n_actions cfg →
  ∃ st', train_dialog_turns cfg b0 (contexts, responses) = Ok st'.
Proof.
  intros Hknown Hlen. unfold train_dialog_turns.
  destruct (for_each_invariant
              (λ st : Bot * DialogTurns, length (prev_action st.1) = n_actions cfg)
              (λ turn : Ctx.t * Resp.t, Resp.act turn.2 ∈ actions cfg)
              (train_turn cfg) (Py.zip contexts responses) (b0, no_turns))
    as (st' & Hrun & _); [|done|done|eauto].
  intros st [c r] Hst Hturn. by apply train_turn_Ok.
Qed.

Lemma zip_take_min {A B} (xs : list A) (ys : list B) :
  Py.zip (take (length xs `min` length ys) xs) (take (length xs `min` length ys) ys)
  = Py.zip xs ys.
Proof. rewrite zip_take, <- zip_length. apply firstn_all. Qed.

Lemma zip_fst {A B} (xs : list A) (ys : list B) :
  (Py.zip xs ys).*1 = take (length ys) xs.
Proof.
  revert ys. induction xs as [|x xs IH]; intros [|y ys]; simpl; try done.
  - by rewrite IH.
Qed.

(** The turn loop of a dialog, entered with a memory of zeros and ones
    that has one entry per action. *)
Lemma train_turns_run (turns : list (Ctx.t * Resp.t)) (b0 : Bot)
    (st' : Bot * DialogTurns) :
  for_each (train_turn cfg) turns (b0, no_turns) = Ok st' →
  zero_one (prev_action b0) →
  length (prev_action b0) = n_actions cfg →
  Forall2 (λ turn a, _encode_response cfg (Resp.act turn.2) = Ok a)
          turns (d_actions st'.2)
  ∧ length (d_features st'.2) = length turns
  ∧ length (d_masks st'.2) = length turns
  ∧ prev_action st'.1
    = from_option (onehot (n_actions cfg)) (prev_action b0) (last (d_actions st'.2))
  ∧ network st'.1 = network b0
  ∧ db_result st'.1 = stored_db (db_result b0) turns.*1
  ∧ ∀ t f, d_features st'.2 !! t = Some f →
      ∃ bt c, turns.*1 !! t = Some c
        ∧ prev_action bt = memory_at cfg (prev_action b0) (d_actions st'.2) t
        ∧ db_result bt = stored_db (db_result b0) (take t turns.*1)
        ∧ f = (_encode_context cfg bt (Ctx.text c) (Ctx.db_result c)).2.
Proof.
  intros Hrun H01 Hlen0. revert st' Hrun.
  induction turns as [|[c r] turns IH] using rev_ind; intros st' Hrun.
  - injection Hrun as <-. simpl. repeat split; [constructor|]. intros t f [=].
  - rewrite for_each_app in Hrun. inv_bind Hrun. rename a into st1, Ha into Hrun1.
    simpl in Hrun. inv_bind Hrun. injection Hrun as <-. rename a into st2, Ha into Hturn.
    destruct (IH st1 Hrun1) as (Hacts & Hlf & Hlm & Hpa & Hnet & Hdb & Hfeat).
    apply train_turn_inv in Hturn as (a & mask & Henc & Hlt & Hb & _ & Hd).
    pose proof (Forall2_length _ _ _ Hacts) as Hla.
    assert (zero_one (prev_action st1.1) ∧ length (prev_action st1.1) = n_actions cfg)
      as [H01' Hlen1].
    { rewrite Hpa. destruct (last (d_actions st1.2)); simpl;
        [split; [apply zero_one_onehot | apply onehot_length] | done]. }
    rewrite Hb, Hd. cbn [fst snd d_features d_actions d_masks prev_action
      network db_result set_prev_action]. rewrite !length_app, Hlf, Hlm. cbn [length].
    split; [|split; [|split; [|split; [|split; [|split]]]]]; try done.
    + apply Forall2_app; [done|]. by repeat constructor.
    + rewrite last_snoc. simpl. by rewrite force_zero_one, Hlen1.
    + destruct (store_db_result_frame
                  (_encode_context cfg st1.1 (Ctx.text c) (Ctx.db_result c)).1
                  (Ctx.db_result c)) as (_ & _ & _ & -> & _).
      by destruct (encode_context_frame st1.1 (Ctx.text c) (Ctx.db_result c))
        as (_ & _ & -> & _).
    + destruct (store_db_result_frame
                  (_encode_context cfg st1.1 (Ctx.text c) (Ctx.db_result c)).1
                  (Ctx.db_result c)) as (-> & _).
      destruct (encode_context_frame st1.1 (Ctx.text c) (Ctx.db_result c))
        as (-> & _).
      rewrite fmap_app. unfold stored_db. rewrite foldl_app. simpl.
      by rewrite Hdb.
    + intros t f Hf. rewrite fmap_app. simpl.
      destruct (decide (t < length (d_features st1.2))%nat) as [Hin|Hout].
      * rewrite lookup_app_l in Hf by done.
        destruct (Hfeat t f Hf) as (bt & c' & Hc' & Hbt & Hbdb & ->).
        exists bt, c'. split; [|split; [|split; [|done]]].
        -- by apply lookup_app_l_Some.
        -- rewrite Hbt. destruct t as [|t']; simpl; [done|].
           rewrite lookup_app_l by lia. done.
        -- rewrite Hbdb, take_app_le; [done|]. rewrite length_fmap. lia.
      * assert (t = length (d_features st1.2)) as ->.
        { apply lookup_lt_Some in Hf. rewrite length_app in Hf. simpl in Hf. lia. }
        rewrite list_lookup_middle in Hf by done. injection Hf as <-.
        exists st1.1, c. split; [|split; [|split; [|done]]];
          [| |rewrite Hdb, Hlf, take_app_le by (rewrite length_fmap; lia);
              by rewrite take_ge by (rewrite length_fmap; lia)].
        -- apply list_lookup_middle. by rewrite length_fmap.
        -- rewrite Hpa, last_lookup, Hlf, <- Hla.
           destruct (length turns) as [|n'] eqn:En; simpl.
           ++ destruct (d_actions st1.2); [done | simpl in Hla; lia].
           ++ rewrite lookup_app_l by lia.
              destruct (lookup_lt_is_Some_2 (d_actions st1.2) n') as [a' ->]; [lia|].
              done.
Qed.

Lemma reset_start (b : Bot) (m : DialogMetrics) :
  zero_one (prev_action (set_metrics (reset cfg b) m))
  ∧ length (prev_action (set_metrics (reset cfg b) m)) = n_actions cfg
  ∧ prev_action (set_metrics (reset cfg b) m) = Np.zeros (n_actions cfg)
  ∧ db_result (set_metrics (reset cfg b) m) = None
  ∧ network (set_metrics (reset cfg b) m) = network b ++ [NetResetState].
Proof.
  simpl. repeat split; [apply zero_one_zeros | apply length_replicate].
Qed.

(** *** Training dialogs *)

(** Where the two entry points enter the turn loop of a dialog: after
    [reset()], and in [train] after counting the dialog. *)
Lemma train_dialog_enters (b : Bot) (dialog : list Ctx.t * list Resp.t) :
  train_dialog cfg b dialog
  = (st ← train_dialog_turns cfg
            (set_metrics (reset cfg b) (count_dialog (metrics b))) dialog;
     let out := call_network_train cfg st.1 st.2 in
     Ok (set_metrics out.1
           (fold_left (count_example out.2.1) (Py.zip out.2.2 (d_actions st.2))
                      (metrics out.1)))).
Proof. reflexivity. Qed.

Lemma train_on_batch_enters (b : Bot) (contexts : list Ctx.t) (responses : list Resp.t) :
  train_now cfg = true →
  train_on_batch cfg b ([contexts], [responses])
  = (st ← train_dialog_turns cfg (set_metrics (reset cfg b) (metrics b))
            (contexts, responses);
     Ok ((call_network_train cfg st.1 st.2).1, Some ())).
Proof.
  intros Hnow. unfold train_on_batch, check_attr_true. rewrite Hnow.
  cbn [Py.zip fst snd for_each].
  change (reset cfg b) with (set_metrics (reset cfg b) (metrics b)).
  by destruct (train_dialog_turns cfg _ (contexts, responses)).
Qed.

(** The turn loop of a dialog with known labels, entered from [reset()]:
    it runs to its end, leaves the network as [reset()] left it and collects
    one entry per turn pair. *)
Lemma train_dialog_turns_lengths (b : Bot) (m : DialogMetrics) (contexts : list Ctx.t)
    (responses : list Resp.t) :
  Forall (λ turn, Resp.act turn.2 ∈ actions cfg) (Py.zip contexts responses) →
  ∃ st,
    train_dialog_turns cfg (set_metrics (reset cfg b) m) (contexts, responses) = Ok st
    ∧ network st.1 = network b ++ [NetResetState]
    ∧ length (d_features st.2) = (length contexts `min` length responses)%nat
    ∧ length (d_actions st.2) = (length contexts `min` length responses)%nat
    ∧ length (d_masks st.2) = (length contexts `min` length responses)%nat.
Proof.
  intros Hknown. destruct (reset_start b m) as (H01 & Hlen & _ & _ & Hnet).
  destruct (train_dialog_turns_Ok _ contexts responses Hknown Hlen) as [st Hrun].
  exists st. split; [done|].
  destruct (train_turns_run _ _ _ Hrun H01 Hlen) as (Hacts & Hlf & Hlm & _ & Hnet' & _).
  apply Forall2_length in Hacts. rewrite zip_length in Hacts, Hlf, Hlm.
  rewrite Hnet', Hnet. by repeat split.
Qed.

Lemma train_dialog_Ok (b : Bot) (dialog : list Ctx.t * list Resp.t) :
  Forall (λ turn, Resp.act turn.2 ∈ actions cfg) (Py.zip dialog.1 dialog.2) →
  ∃ b', train_dialog cfg b dialog = Ok b'.
Proof.
  destruct dialog as [contexts responses]. cbn [fst snd]. intros Hknown.
  destruct (train_dialog_turns_lengths b (count_dialog (metrics b)) _ _ Hknown)
    as (st & Hrun & _).
  rewrite train_dialog_enters, Hrun, bind_ret. eauto.
Qed.

(** The turns up to [k] of a dialog whose turn loop runs to its end: the
    loop on the two sequences cut to [k] runs to its end as well, and leaves
    the memory and the stored database result of that moment. *)
Lemma train_dialog_prefix (b0 : Bot) (contexts : list Ctx.t) (responses : list Resp.t)
    (st : Bot * DialogTurns) (k : nat) :
  train_dialog_turns cfg b0 (contexts, responses) = Ok st →
  zero_one (prev_action b0) →
  length (prev_action b0) = n_actions cfg →
  ∃ st_k,
    train_dialog_turns cfg b0 (take k contexts, take k responses) = Ok st_k
    ∧ d_actions st_k.2 = take k (d_actions st.2)
    ∧ prev_action st_k.1
      = from_option (onehot (n_actions cfg)) (prev_action b0)
                    (last (take k (d_actions st.2)))
    ∧ db_result st_k.1
      = stored_db (db_result b0) (take k (take (length responses) contexts)).
Proof.
  unfold train_dialog_turns. cbn [fst snd]. intros Hrun H01 Hlen.
  destruct (train_turns_run _ _ _ Hrun H01 Hlen) as (Hacts & _).
  rewrite zip_take.
  rewrite <- (take_drop k (Py.zip contexts responses)), for_each_app in Hrun.
  apply bind_Ok in Hrun as (st_k & Hpre & _).
  exists st_k. split; [done|].
  destruct (train_turns_run _ _ _ Hpre H01 Hlen) as (Hacts_k & _ & _ & Hpa & _ & Hdb & _).
  assert (d_actions st_k.2 = take k (d_actions st.2)) as Hpref.
  { eapply Forall2_unique; [exact Hacts_k | by apply Forall2_take |].
    intros turn a1 a2 H1 H2. congruence. }
  rewrite Hpa, Hdb, Hpref, fmap_take, zip_fst. done.
Qed.

(** Claim C10.  For a dialog whose labels are known as far as the turn
    pairs go, both training entry points submit to [network.train] exactly
    min(number of contexts, number of responses) turns, and what they do is
    what they do on the two sequences cut to that length. *)
Theorem surplus_turns_ignored (b : Bot) (contexts : list Ctx.t)
    (responses : list Resp.t) :
  Forall (λ turn, Resp.act turn.2 ∈ actions cfg) (Py.zip contexts responses) →
  let n := (length contexts `min` length responses)%nat in
  (∃ b' d,
      train_dialog cfg b (contexts, responses) = Ok b'
      ∧ network b' = network b ++ [NetResetState;
                                   NetTrain (d_features d) (d_actions d) (d_masks d)]
      ∧ length (d_features d) = n ∧ length (d_actions d) = n ∧ length (d_masks d) = n)
  ∧ (train_now cfg = true →
     ∃ b' d,
      train_on_batch cfg b ([contexts], [responses]) = Ok (b', Some ())
      ∧ network b' = network b ++ [NetResetState;
                                   NetTrain (d_features d) (d_actions d) (d_masks d)]
      ∧ length (d_features d) = n ∧ length (d_actions d) = n ∧ length (d_masks d) = n)
  ∧ train_dialog cfg b (contexts, responses)
    = train_dialog cfg b (take n contexts, take n responses)
  ∧ train_on_batch cfg b ([contexts], [responses])
    = train_on_batch cfg b ([take n contexts], [take n responses]).
Proof.
  intros Hknown n. split; [|split; [|split]].
  - destruct (train_dialog_turns_lengths b (count_dialog (metrics b)) _ _ Hknown)
      as (st & Hrun & Hnet & Hlf & Hla & Hlm).
    rewrite train_dialog_enters, Hrun, bind_ret.
    eexists _, st.2. split; [done|]. cbn [network set_metrics call_network_train fst].
    rewrite Hnet, <- app_assoc. by repeat split.
  - intros Hnow.
    destruct (train_dialog_turns_lengths b (metrics b) _ _ Hknown)
      as (st & Hrun & Hnet & Hlf & Hla & Hlm).
    rewrite (train_on_batch_enters _ _ _ Hnow), Hrun, bind_ret.
    eexists _, st.2. split; [done|]. cbn [network set_network call_network_train fst].
    rewrite Hnet, <- app_assoc. by repeat split.
  - unfold train_dialog, train_dialog_turns. cbn [fst snd]. subst n.
    by rewrite zip_take_min.
  - unfold train_on_batch, train_dialog_turns. cbn [Py.zip fst snd for_each]. subst n.
    by rewrite zip_take_min.
Qed.

(** Claim C3.  In a training dialog (entered from [reset()], whatever the
    metrics), the memory the first turn's features end with is the zero
    vector; and for every turn [t] with ground-truth action id [a] (the
    index of the turn's response label), the memory after the turns up to
    [t] is the one-hot vector for [a], and the features of turn [t+1] are
    encoded from a bot with that memory and end with it. *)
Theorem teacher_forcing (b : Bot) (m : DialogMetrics) (contexts : list Ctx.t)
    (responses : list Resp.t) (b' : Bot) (d : DialogTurns) :
  let start := set_metrics (reset cfg b) m in
  train_dialog_turns cfg start (contexts, responses) = Ok (b', d) →
  (∀ f, d_features d !! 0%nat = Some f → Np.zeros (n_actions cfg) `suffix_of` f)
  ∧ ∀ t a, d_actions d !! t = Some a →
      (∃ r, responses !! t = Some r ∧ _encode_response cfg (Resp.act r) = Ok a)
      ∧ (∃ bt dt,
            train_dialog_turns cfg start (take (S t) contexts, take (S t) responses)
            = Ok (bt, dt)
            ∧ prev_action bt = onehot (n_actions cfg) a)
      ∧ (∀ f, d_features d !! S t = Some f →
           onehot (n_actions cfg) a `suffix_of` f
           ∧ ∃ bt c, contexts !! S t = Some c
               ∧ prev_action bt = onehot (n_actions cfg) a
               ∧ f = (_encode_context cfg bt (Ctx.text c) (Ctx.db_result c)).2).
Proof.
  intros start Hrun. destruct (reset_start b m) as (H01 & Hlen & Hzeros & _).
  fold start in H01, Hlen, Hzeros.
  destruct (train_turns_run _ _ _ Hrun H01 Hlen)
    as (Hacts & Hlf & _ & _ & _ & _ & Hfeat). cbn [fst snd] in *.
  split.
  - intros f Hf. destruct (Hfeat 0%nat f Hf) as (bt & c & _ & Hbt & _ & ->).
    unfold memory_at in Hbt. rewrite <- Hzeros, <- Hbt. apply encode_context_suffix.
  - intros t a Ha. split; [|split].
    + destruct (Forall2_lookup_r _ _ _ _ _ Hacts Ha) as ([c r] & Hturn & Henc).
      apply zip_lookup in Hturn as [_ Hr]. eauto.
    + destruct (train_dialog_prefix _ _ _ _ (S t) Hrun H01 Hlen)
        as ([bt dt] & Hpre & _ & Hpa & _). cbn [fst snd] in *.
      exists bt, dt. split; [done|].
      pose proof (lookup_lt_Some _ _ _ Ha) as Hlt.
      rewrite Hpa, last_lookup, length_take.
      replace (Init.Nat.pred (S t `min` length (d_actions d))) with t by lia.
      rewrite lookup_take_lt by lia. by rewrite Ha.
    + intros f Hf. destruct (Hfeat (S t) f Hf) as (bt & c & Hc & Hbt & _ & ->).
      unfold memory_at in Hbt. rewrite Ha in Hbt. cbn [from_option] in Hbt. split.
      * rewrite <- Hbt. apply encode_context_suffix.
      * exists bt, c. repeat split; [|done].
        rewrite zip_fst in Hc. by apply lookup_take_Some in Hc as [? _].
Qed.

(** Claim C4.  In a training dialog, each turn replaces the stored
    database result by the one it supplies and leaves it as it is when it
    supplies none: the result stored after the turns up to [t] is
    [stored_db] of these turns.  The second context flag of turn [t] is
    computed from the result stored before turn [t], that is from the earlier
    turns alone.  So when turn 1 supplies {"x": 1} and turn 2 supplies none,
    the flag at turn 2 is 0 and the stored result is still {"x": 1}. *)
Theorem sticky_db_result (b : Bot) (m : DialogMetrics) (contexts : list Ctx.t)
    (responses : list Resp.t) (b' : Bot) (d : DialogTurns) :
  let start := set_metrics (reset cfg b) m in
  train_dialog_turns cfg start (contexts, responses) = Ok (b', d) →
  db_result b' = stored_db None (take (length responses) contexts)
  ∧ (∀ t c stored, contexts !! t = Some c →
       stored_db stored (take (S t) contexts)
       = match Ctx.db_result c with
         | Some db_result' => Some db_result'
         | None => stored_db stored (take t contexts)
         end)
  ∧ (∀ t, (t < length (d_features d))%nat →
       ∃ bt dt,
         train_dialog_turns cfg start (take (S t) contexts, take (S t) responses)
         = Ok (bt, dt)
         ∧ db_result bt = stored_db None (take (S t) contexts))
  ∧ (∀ t f c, d_features d !! t = Some f → contexts !! t = Some c →
       ∃ pre memory,
         f = pre ++ [is_empty_dict (Ctx.db_result c);
                     is_empty_dict (stored_db None (take t contexts))] ++ memory
         ∧ length memory = n_actions cfg)
  ∧ (∀ c1 c2 r1 r2,
       contexts = [c1; c2] → responses = [r1; r2] →
       Ctx.db_result c1 = Some {[ "x" := Py.VInt 1 ]} → Ctx.db_result c2 = None →
       db_result b' = Some {[ "x" := Py.VInt 1 ]}
       ∧ ∃ f pre memory,
           d_features d !! 1%nat = Some f
           ∧ f = pre ++ [0%float; 0%float] ++ memory
           ∧ length memory = n_actions cfg).
Proof.
  intros start Hrun. destruct (reset_start b m) as (H01 & Hlen & Hzeros & Hnone & _).
  fold start in H01, Hlen, Hzeros, Hnone.
  destruct (train_turns_run _ _ _ Hrun H01 Hlen)
    as (Hacts & Hlf & _ & _ & _ & Hdb & Hfeat). cbn [fst snd] in *.
  rewrite Hnone, zip_fst in Hdb.
  assert (∀ t f c, d_features d !! t = Some f → contexts !! t = Some c →
       ∃ pre memory,
         f = pre ++ [is_empty_dict (Ctx.db_result c);
                     is_empty_dict (stored_db None (take t contexts))] ++ memory
         ∧ length memory = n_actions cfg) as Hflags.
  { intros t f c Hf Hc. destruct (Hfeat t f Hf) as (bt & c' & Hc' & Hbt & Hbdb & ->).
    rewrite zip_fst in Hc', Hbdb. rewrite Hnone in Hbdb.
    apply lookup_take_Some in Hc' as [Hc' Hlt]. simplify_eq.
    rewrite encode_context_layout, Hbdb, take_take.
    replace (t `min` length responses)%nat with t by lia.
    eexists _, (prev_action bt). split; [apply app_assoc4|].
    rewrite Hbt. destruct t as [|t']; simpl; [done|].
    pose proof (lookup_lt_Some _ _ _ Hf) as Hlt'.
    apply Forall2_length in Hacts. rewrite Hlf, Hacts in Hlt'.
    destruct (lookup_lt_is_Some_2 (d_actions d) t') as [a ->]; [lia|].
    apply onehot_length. }
  split; [done|split; [|split; [|split; [done|]]]].
  - intros t c stored Hc. rewrite (take_S_r _ _ _ Hc).
    unfold stored_db. rewrite foldl_app. simpl. by destruct (Ctx.db_result c).
  - intros t Ht.
    destruct (train_dialog_prefix _ _ _ _ (S t) Hrun H01 Hlen)
      as ([bt dt] & Hpre & _ & _ & Hbdb). cbn [fst snd] in *.
    exists bt, dt. split; [done|]. rewrite Hbdb, Hnone, take_take.
    rewrite Hlf, zip_length in Ht.
    by replace (S t `min` length responses)%nat with (S t) by lia.
  - intros c1 c2 r1 r2 -> -> Hc1 Hc2. split.
    + rewrite Hdb. simpl. by rewrite Hc1, Hc2.
    + pose proof Hlf as Hlf'. simpl in Hlf'.
      destruct (lookup_lt_is_Some_2 (d_features d) 1%nat) as [f Hf]; [lia|].
      destruct (Hflags 1%nat f c2 Hf eq_refl) as (pre & memory & Hfeq & Hmem).
      exists f, pre, memory. split; [done|split; [|done]].
      rewrite Hfeq. simpl. by rewrite Hc1, Hc2.
Qed.

(** *** Inference *)

(** What one successful inference turn does. *)
Lemma infer_inv (b b' : Bot) (text : string) (dbr : option (gmap string Py.value))
    (prob : bool) (r : string) :
  _infer cfg b text dbr prob = Ok (b', r) →
  ∃ (mask : list float) (pred_id : nat),
    _action_mask cfg (_encode_context cfg b text dbr).1 = Ok mask
    ∧ Np.argmax (network_infer cfg (network b) (_encode_context cfg b text dbr).2 mask)
      = Ok pred_id
    ∧ network b' = network b ++ [NetInfer (_encode_context cfg b text dbr).2 mask]
    ∧ db_result b' = from_option Some (db_result b) dbr
    ∧ tracker b' = tracker (_encode_context cfg b text dbr).1
    ∧ metrics b' = metrics b
    ∧ (prob = false →
       (pred_id < length (prev_action b))%nat
       ∧ prev_action b' = <[pred_id := 1%float]> (Np.imul (prev_action b) 0%float))
    ∧ _decode_response cfg b' (Z.of_nat pred_id) = Ok r.
Proof.
  unfold _infer. cbv zeta. intros H.
  destruct (encode_context_frame b text dbr) as (Hdb & Hpa & Hnet & Hmet).
  step_bind H. rename a into mask, Ha into Hmask.
  step_bind H. rename a into pred_id, Ha into Hmax.
  pose proof (store_db_result_frame
                (set_network (_encode_context cfg b text dbr).1
                   (network (_encode_context cfg b text dbr).1
                    ++ [NetInfer (_encode_context cfg b text dbr).2 mask])) dbr)
    as (Hsdb & Hstr & Hspa & Hsnet & Hsmet).
  cbn [db_result tracker metrics network prev_action set_network] in *.
  rewrite Hnet in *.
  exists mask, pred_id. split; [done|]. split; [done|].
  destruct prob.
  - rewrite bind_ret in H. step_bind H. rename Ha into Hdec.
    apply Ok_pair_inj in H as [<- <-]. cbn [db_result tracker metrics network set_prev_action].
    rewrite Hsdb, Hstr, Hsnet, Hsmet, Hdb, Hmet. by repeat split.
  - step_bind H. rename a into b1, Ha into Hmem.
    step_bind H. rename Ha into Hdec. apply Ok_pair_inj in H as [<- <-].
    apply force_prev_action_inv in Hmem as [Hlt ->].
    cbn [db_result tracker metrics network prev_action set_prev_action] in *.
    rewrite Hsdb, Hstr, Hsnet, Hsmet, Hspa, Hdb, Hmet, Hpa in *.
    by repeat split.
Qed.

Lemma infer_turns_calls (contexts : list Ctx.t) (st st' : Bot * list string) :
  for_each (λ st context,
      b ← match Ctx.prev_resp_act context with
          | Some prev_resp_act =>
              action_id ← _encode_response cfg prev_resp_act;
              force_prev_action st.1 action_id
          | None => Ok st.1
          end;
      r ← _infer cfg b (Ctx.text context) (Ctx.db_result context) false;
      Ok (r.1, st.2 ++ [r.2]))
    contexts st = Ok st' →
  length (prev_action st.1) = n_actions cfg →
  ∃ calls,
    network st'.1 = network st.1 ++ calls
    ∧ Forall2 (turn_call cfg) contexts calls
    ∧ length (prev_action st'.1) = n_actions cfg
    ∧ length st'.2 = (length st.2 + length contexts)%nat.
Proof.
  revert st. induction contexts as [|c contexts IH]; intros st Hrun Hlen.
  - injection Hrun as <-. exists []. rewrite app_nil_r.
    repeat split; [constructor | done | simpl; lia].
  - cbn [for_each] in Hrun. inv_bind Hrun. rename a into st1, Ha into Hturn.
    inv_bind Hturn. rename a into b1, Ha into Hforce.
    inv_bind Hturn. destruct a as [b2 r]. injection Hturn as <-.
    assert (length (prev_action b1) = n_actions cfg ∧ network b1 = network st.1)
      as [Hlen1 Hnet1].
    { destruct (Ctx.prev_resp_act c) as [label|].
      - inv_bind Hforce. apply force_prev_action_inv in Hforce as [_ ->].
        simpl. by rewrite length_insert, imul_length.
      - by injection Hforce as <-. }
    apply infer_inv in Ha as (mask & pred_id & _ & _ & Hnet & _ & _ & _ & Hpa & _).
    destruct (Hpa eq_refl) as [_ Hpa'].
    destruct (IH _ Hrun) as (calls & Hnet' & Hcalls & Hlen' & Hres).
    { cbn [fst]. by rewrite Hpa', length_insert, imul_length. }
    cbn [fst snd] in *. eexists (_ :: calls).
    split; [|split; [|split; [done|]]].
    + rewrite Hnet', Hnet, Hnet1, <- app_assoc. done.
    + constructor; [|done]. by exists b1, mask.
    + rewrite Hres, length_app. simpl. lia.
Qed.

Lemma infer_dialog_calls (b b' : Bot) (contexts : list Ctx.t) (rs : list string) :
  _infer_dialog cfg b contexts = Ok (b', rs) →
  ∃ calls,
    network b' = network b ++ NetResetState :: calls
    ∧ Forall2 (turn_call cfg) contexts calls
    ∧ length rs = length contexts.
Proof.
  unfold _infer_dialog. intros Hrun.
  destruct (infer_turns_calls _ _ _ Hrun) as (calls & Hnet & Hcalls & _ & Hres).
  { apply length_replicate. }
  exists calls. cbn [fst snd reset network] in *.
  by rewrite Hnet, <- app_assoc.
Qed.

Lemma infer_on_batch_calls (xs : list (list Ctx.t)) (st st' : Bot * list (list string)) :
  for_each (λ st x,
      r ← _infer_dialog cfg st.1 x;
      Ok (r.1, st.2 ++ [r.2]))
    xs st = Ok st' →
  ∃ per_dialog,
    network st'.1 = network st.1 ++ concat (map (cons NetResetState) per_dialog)
    ∧ Forall2 (Forall2 (turn_call cfg)) xs per_dialog.
Proof.
  revert st. induction xs as [|x xs IH]; intros st Hrun.
  - injection Hrun as <-. exists []. simpl. rewrite app_nil_r. by split; [|constructor].
  - cbn [for_each] in Hrun. inv_bind Hrun. rename a into st1, Ha into Hdialog.
    inv_bind Hdialog. destruct a as [b1 rs]. injection Hdialog as <-.
    apply infer_dialog_calls in Ha as (calls & Hnet & Hcalls & _).
    destruct (IH _ Hrun) as (per_dialog & Hnet' & Hper).
    exists (calls :: per_dialog). cbn [fst snd] in *. split; [|by constructor].
    rewrite Hnet', Hnet. cbn [map concat]. by rewrite <- !app_assoc.
Qed.

(** Claim C9.  [infer] on a single string makes one network call, an
    [infer] call and no [reset_state]; the features of that call are
    encoded from the bot as the earlier calls left it: the tracker it had
    (updated by the slot filler, if there is one), the flag of its stored
    database result and its previous-action memory; and the stored database
    result stays.  [infer] on a batch of dialogs makes, for each dialog, a
    [reset_state] call followed by one [infer] call per turn. *)
Theorem infer_string_keeps_state (b b' : Bot) (x : string) (r : InferResult) :
  infer cfg b (OfStr x) = Ok (b', r) →
  let kept_tracker :=
    from_option (λ slot_infer, update_state (tracker b) (slot_infer (tokenized cfg x)))
                (tracker b) (slot_filler cfg) in
  let features :=
    bow_encoder cfg (tokenized cfg x)
    ++ from_option (λ embedder_infer, embedder_infer (tokenized cfg x)) [] (embedder cfg)
    ++ from_option (λ intent_infer, intent_infer (tokenized cfg x)) []
                   (intent_classifier cfg)
    ++ tracker_infer kept_tracker
    ++ [0%float; is_empty_dict (db_result b)]
    ++ prev_action b in
  (∃ mask, network b' = network b ++ [NetInfer features mask])
  ∧ db_result b' = db_result b
  ∧ tracker b' = kept_tracker
  ∧ ∀ xs b'' rs, infer cfg b (OfBatch xs) = Ok (b'', rs) →
      ∃ per_dialog,
        network b'' = network b ++ concat (map (cons NetResetState) per_dialog)
        ∧ Forall2 (λ contexts calls,
                     length calls = length contexts
                     ∧ Forall (λ call, is_infer_call call = true) calls)
                  xs per_dialog.
Proof.
  intros Hrun kept_tracker features. cbn [infer] in Hrun. inv_bind Hrun.
  destruct a as [b1 r1]. injection Hrun as <- _.
  apply infer_inv in Ha as (mask & pred_id & _ & _ & Hnet & Hdb & Htr & _).
  rewrite encode_context_layout, encode_context_tracker in Hnet.
  rewrite encode_context_tracker in Htr.
  split; [by exists mask|split; [done|split; [done|]]].
  intros xs b'' rs Hbatch. cbn [infer] in Hbatch.
  apply bind_Ok in Hbatch as (st & Hst & Hbatch).
  injection Hbatch as <- _. unfold infer_on_batch in Hst.
  apply infer_on_batch_calls in Hst as (per_dialog & Hnet' & Hper).
  exists per_dialog. split; [done|].
  eapply Forall2_impl; [exact Hper|]. intros contexts calls Hcalls. split.
  - symmetry. by eapply Forall2_length.
  - clear -Hcalls. induction Hcalls as [|c call ? ? (bt & mask & -> & _) _ IH];
      by constructor.
Qed.

(** *** The feature vector *)

Section FixedWidths.

(** The collaborators return vectors of fixed lengths. *)
Variables n_bow n_emb n_intent n_state : nat.
Hypothesis bow_width : ∀ s, length (bow_encoder cfg s) = n_bow.
Hypothesis emb_width : ∀ e s, embedder cfg = Some e → length (e s) = n_emb.
Hypothesis intent_width :
  ∀ e s, intent_classifier cfg = Some e → length (e s) = n_intent.
Hypothesis state_width : ∀ t, length (tracker_infer t) = n_state.

Lemma encode_context_width (b : Bot) (text : string)
    (dbr : option (gmap string Py.value)) :
  length (prev_action b) = n_actions cfg →
  length (_encode_context cfg b text dbr).2 = width cfg n_bow n_emb n_intent n_state.
Proof.
  intros Hlen. rewrite encode_context_layout, !length_app, bow_width, state_width, Hlen.
  unfold width. simpl.
  destruct (embedder cfg) as [e|] eqn:Ee, (intent_classifier cfg) as [i|] eqn:Ei; simpl;
    rewrite ?(emb_width e _ eq_refl), ?(intent_width i _ eq_refl); lia.
Qed.

(** Claim C7.  The fused feature vector is the concatenation, in this
    order, of the bag-of-words, embedding, intent, tracker-state,
    context-flag and previous-action segments, the embedding and intent
    segments being empty when the collaborator is absent; and when the
    collaborators return vectors of fixed lengths, every feature vector
    of every training dialog and every feature vector submitted by the
    inference of a batch of dialogs, or of a single string by a bot
    whose memory has one entry per action (as [__init__], [reset] and
    every turn leave it), has the same length [width]. *)
Theorem feature_vector_layout :
  (∀ b text dbr,
     (_encode_context cfg b text dbr).2
     = bow_encoder cfg (tokenized cfg text)
       ++ match embedder cfg with
          | Some embedder_infer => embedder_infer (tokenized cfg text)
          | None => []
          end
       ++ match intent_classifier cfg with
          | Some intent_infer => intent_infer (tokenized cfg text)
          | None => []
          end
       ++ tracker_infer (tracker (_encode_context cfg b text dbr).1)
       ++ [is_empty_dict dbr; is_empty_dict (db_result b)]
       ++ prev_action b)
  ∧ (∀ b m contexts responses b' d,
       train_dialog_turns cfg (set_metrics (reset cfg b) m) (contexts, responses)
       = Ok (b', d) →
       length (d_features d) = (length contexts `min` length responses)%nat
       ∧ Forall (λ f, length f = width cfg n_bow n_emb n_intent n_state) (d_features d))
  ∧ (∀ b xs b' rs,
       infer cfg b (OfBatch xs) = Ok (b', rs) →
       ∃ calls,
         network b' = network b ++ calls
         ∧ length (List.filter is_infer_call calls) = length (concat xs)
         ∧ Forall (λ call, match call with
                           | NetInfer features _ => length features = width cfg n_bow n_emb n_intent n_state
                           | _ => True
                           end) calls)
  ∧ (∀ b x b' r,
       length (prev_action b) = n_actions cfg →
       infer cfg b (OfStr x) = Ok (b', r) →
       (∃ features mask,
           network b' = network b ++ [NetInfer features mask]
           ∧ length features = width cfg n_bow n_emb n_intent n_state)
       ∧ length (prev_action b') = n_actions cfg).
Proof.
  split; [|split; [|split]].
  - intros b text dbr. rewrite encode_context_layout.
    by destruct (embedder cfg), (intent_classifier cfg).
  - intros b m contexts responses b' d Hrun.
    destruct (reset_start b m) as (H01 & Hlen & _).
    destruct (train_turns_run _ _ _ Hrun H01 Hlen)
      as (Hacts & Hlf & _ & _ & _ & _ & Hfeat). cbn [fst snd] in *.
    split; [by rewrite Hlf, zip_length|].
    apply Forall_lookup. intros t f Hf.
    destruct (Hfeat t f Hf) as (bt & c & _ & Hbt & _ & ->).
    apply encode_context_width. rewrite Hbt.
    destruct t as [|t']; simpl; [done|].
    pose proof (lookup_lt_Some _ _ _ Hf) as Hlt.
    apply Forall2_length in Hacts. rewrite Hlf, Hacts in Hlt.
    destruct (lookup_lt_is_Some_2 (d_actions d) t') as [a ->]; [lia|].
    apply onehot_length.
  - intros b xs b' rs Hrun. cbn [infer] in Hrun. inv_bind Hrun.
    injection Hrun as <- _. unfold infer_on_batch in Ha.
    apply infer_on_batch_calls in Ha as (per_dialog & Hnet & Hper).
    eexists. split; [exact Hnet|]. clear Hnet.
    induction Hper as [|contexts calls xs' per' Hcalls _ [IHn IHw]]; [done|].
    cbn [map concat]. split.
    + rewrite List.filter_app, !length_app, IHn. f_equal.
      cbn [List.filter is_infer_call].
      clear -Hcalls. induction Hcalls as [|c call ? ? (bt & mask & -> & _) _ IH];
        [done|]. simpl. by rewrite IH.
    + constructor; [done|]. apply Forall_app. split; [|done].
      clear -Hcalls bow_width emb_width intent_width state_width.
      induction Hcalls as [|c call ? ? (bt & mask & -> & Hlen) _ IH];
        constructor; [|done]. by apply encode_context_width.
  - intros b x b' r Hlen Hrun. cbn [infer] in Hrun.
    apply bind_Ok in Hrun as ([b1 r1] & Hinfer & Hrun).
    apply Ok_pair_inj in Hrun as [<- _]. cbn [fst].
    apply infer_inv in Hinfer as (mask & pred_id & _ & _ & Hnet & _ & _ & _ & Hpa & _).
    destruct (Hpa eq_refl) as [_ ->]. split.
    + eexists _, mask. split; [exact Hnet|]. by apply encode_context_width.
    + by rewrite length_insert, imul_length.
Qed.

End FixedWidths.

(** *** The epoch loop *)

Section Epochs.

Variable evaluate : list Batch → Bot → Bot * float.
Variable data : Data.

Lemma update_patience_rule (p : Z) (best acc : float) :
  if PrimFloat.ltb acc best
  then (update_patience cfg p best acc).1 = p - 1
       ∧ (update_patience cfg p best acc).2 = best
  else (update_patience cfg p best acc).1 = val_patience cfg
       ∧ (update_patience cfg p best acc).2 = acc.
Proof.
  unfold update_patience. destruct (PrimFloat.ltb acc best); simpl; [done|].
  split; [|done]. case_decide; [done|]. by destruct (decide (p = val_patience cfg)).
Qed.

Lemma train_epochs_inv (k : nat) (b b' : Bot) (p : Z) (best : float)
    (exit : TrainExit) (log : list EpochLog) :
  train_epochs cfg evaluate data k b p best = Ok (b', (exit, log)) →
  patience_rule cfg p best log
  ∧ (length log ≤ k)%nat
  ∧ (exit = MaxEpochsEncountered →
     length log = k ∧ Forall (λ e, 1 ≤ curr_patience e) log)
  ∧ (exit = PatienceOver →
     ∃ log0 e, log = log0 ++ [e]
       ∧ Forall (λ e, 1 ≤ curr_patience e) log0 ∧ curr_patience e < 1)
  ∧ (1 ≤ p → 1 ≤ val_patience cfg → Forall (λ e, 0 ≤ curr_patience e) log).
Proof.
  revert b b' p best exit log.
  induction k as [|k IH]; intros b b' p best exit log Hrun; cbn [train_epochs] in Hrun.
  - apply Ok_pair_inj in Hrun as [_ [= <- <-]].
    repeat split; [done | by constructor | discriminate | by constructor].
  - step_bind Hrun. rename a into ep, Ha into Hep. cbv zeta in Hrun.
    pose proof (update_patience_rule p best ep.2) as Hupd.
    set (upd := update_patience cfg p best ep.2) in *.
    assert (1 ≤ p → 1 ≤ val_patience cfg → 0 ≤ upd.1) as Hnonneg.
    { intros Hp Hvp. destruct (PrimFloat.ltb ep.2 best); destruct Hupd as [-> _]; lia. }
    destruct (Z.ltb_spec upd.1 1) as [Hover|Hleft].
    + apply Ok_pair_inj in Hrun as [_ [= <- <-]]. simpl.
      split; [done|]. split; [lia|]. split; [discriminate|].
      split; [|intros; constructor; [by apply Hnonneg | constructor]].
      intros _. eexists [], _. by repeat split.
    + step_bind Hrun. destruct a as [b1 [exit1 log1]].
      apply Ok_pair_inj in Hrun as [_ [= <- <-]].
      destruct (IH _ _ _ _ _ _ Ha) as (Hrule & Hlen & Hmax & Hover & Hnn).
      cbn [fst snd]. split; [done|]. split; [simpl; lia|].
      split; [|split].
      * intros Hexit. destruct (Hmax Hexit) as [<- Hall].
        split; [done | by constructor].
      * intros Hexit. destruct (Hover Hexit) as (log0 & e & -> & Hall & Hlast).
        eexists (_ :: log0), e. split; [done|]. split; [by constructor | done].
      * intros Hp Hvp. constructor; [by apply Hnonneg|]. apply Hnn; [done | done].
Qed.

(** [train] does nothing when the bot is not to be trained, raises when
    the network is not, and otherwise, on a corpus with known labels, runs
    its epoch loop to an exit. *)
Lemma train_guards (b : Bot) :
  (train_now cfg = false → train cfg evaluate b data = Ok (b, None))
  ∧ (train_now cfg = true → network_train_now cfg = false →
     train cfg evaluate b data = Raise ConfigError).
Proof.
  unfold train, check_attr_true. split.
  - by intros ->.
  - by intros -> ->.
Qed.

Lemma train_epoch_Ok (b : Bot) :
  labels_known cfg data → ∃ ep, train_epoch cfg evaluate data b = Ok ep.
Proof.
  unfold labels_known, train_epoch. cbv zeta. intros Hknown.
  destruct (for_each_invariant (λ _ : Bot, True)
              (λ batch : Batch,
                 Forall (λ dialog : list Ctx.t * list Resp.t,
                           Forall (λ turn : Ctx.t * Resp.t, Resp.act turn.2 ∈ actions cfg)
                                  (Py.zip dialog.1 dialog.2))
                        (Py.zip batch.1 batch.2))
              (λ b batch, for_each (train_dialog cfg) (Py.zip batch.1 batch.2) b)
              (data 1%nat "train" false) (reset_metrics b))
    as (b1 & Hb1 & _); [|done|done|eexists; eapply bind_intro; [exact Hb1|done]].
  intros b0 batch _ Hbatch.
  destruct (for_each_invariant (λ _ : Bot, True)
              (λ dialog : list Ctx.t * list Resp.t,
                 Forall (λ turn : Ctx.t * Resp.t, Resp.act turn.2 ∈ actions cfg)
                        (Py.zip dialog.1 dialog.2))
              (train_dialog cfg) (Py.zip batch.1 batch.2) b0)
    as (b1 & Hb1 & _); [|done|done|eauto].
  intros b2 dialog _ Hdialog.
  destruct (train_dialog_Ok b2 dialog Hdialog) as [b3 ->]. eauto.
Qed.

Lemma train_epochs_Ok (k : nat) (b : Bot) (p : Z) (best : float) :
  labels_known cfg data → ∃ r, train_epochs cfg evaluate data k b p best = Ok r.
Proof.
  intros Hknown. revert b p best.
  induction k as [|k IH]; intros b p best; cbn [train_epochs]; [eauto|].
  destruct (train_epoch_Ok b Hknown) as [ep ->]. rewrite bind_ret. cbv zeta.
  destruct (_ <? 1); [eauto|].
  destruct (IH ep.1 (update_patience cfg p best ep.2).1
               (update_patience cfg p best ep.2).2) as [r ->].
  rewrite bind_ret. eauto.
Qed.

Lemma train_returns (b : Bot) :
  train_now cfg = true → network_train_now cfg = true → labels_known cfg data →
  ∃ b' exit log, train cfg evaluate b data = Ok (b', Some (exit, log)).
Proof.
  intros Hnow Hnet Hknown. unfold train, check_attr_true. rewrite Hnow, Hnet.
  cbn [negb].
  destruct (train_epochs_Ok (num_epochs cfg) b (val_patience cfg) 0%float Hknown)
    as [[b1 [exit log]] ->].
  rewrite bind_ret. eauto.
Qed.

Lemma ltb_first : PrimFloat.ltb 0.5%float 0%float = false.
Proof. reflexivity. Qed.
Lemma ltb_second : PrimFloat.ltb 0.4%float 0.5%float = true.
Proof. reflexivity. Qed.
Lemma ltb_third : PrimFloat.ltb 0.3%float 0.5%float = true.
Proof. reflexivity. Qed.

(** Claim C5.  When [train] runs its epoch loop, the loop variables
    logged at the end of the epochs follow the patience rule from the
    configured patience and the best accuracy 0; the loop breaks exactly
    when the patience at the end of an epoch is below 1 (which, for a
    configured patience of at least 1, is when it is 0), and then that
    epoch is the last; it runs [num_epochs] epochs exactly when the
    patience never gets below 1; with accuracies 0.5, 0.4, 0.3 and
    patience 2 it stops after the third epoch; and on either exit the
    last call the network receives is [save]. *)
Theorem early_stopping (b b' : Bot) (exit : TrainExit) (log : list EpochLog) :
  train cfg evaluate b data = Ok (b', Some (exit, log)) →
  patience_rule cfg (val_patience cfg) 0%float log
  ∧ (length log ≤ num_epochs cfg)%nat
  ∧ (exit = PatienceOver ↔ ∃ e, last log = Some e ∧ curr_patience e < 1)
  ∧ (∀ i e, log !! i = Some e → (S i < length log)%nat → 1 ≤ curr_patience e)
  ∧ (exit = MaxEpochsEncountered ↔ Forall (λ e, 1 ≤ curr_patience e) log)
  ∧ (exit = MaxEpochsEncountered → length log = num_epochs cfg)
  ∧ (1 ≤ val_patience cfg → Forall (λ e, 0 ≤ curr_patience e) log)
  ∧ (∃ calls, network b' = calls ++ [NetSave])
  ∧ (val_patience cfg = 2 → (3 ≤ num_epochs cfg)%nat →
     (∀ i e, log !! i = Some e → (i < 3)%nat →
             [0.5%float; 0.4%float; 0.3%float] !! i = Some (action_accuracy e)) →
     exit = PatienceOver ∧ length log = 3%nat).
Proof.
  unfold train, check_attr_true. intros Hrun.
  destruct (train_now cfg); [|discriminate Hrun].
  destruct (network_train_now cfg); [|discriminate Hrun]. cbn [negb] in Hrun.
  step_bind Hrun. destruct a as [b1 [exit1 log1]].
  apply Ok_pair_inj in Hrun as [<- [= <- <-]].
  destruct (train_epochs_inv _ _ _ _ _ _ _ Ha) as (Hrule & Hlen & Hmax & Hover & Hnn).
  assert (exit1 = PatienceOver ↔ ∃ e, last log1 = Some e ∧ curr_patience e < 1)
    as Hbreak.
  { split.
    - intros Hexit. destruct (Hover Hexit) as (log0 & e & -> & _ & Hlast).
      exists e. by rewrite last_snoc.
    - intros (e & He & Hlast). destruct exit1; [done|]. exfalso.
      destruct (Hmax eq_refl) as [_ Hall]. rewrite last_lookup in He.
      pose proof (Forall_lookup_1 _ _ _ _ Hall He). simpl in *. lia. }
  assert (∀ i e, log1 !! i = Some e → (S i < length log1)%nat → 1 ≤ curr_patience e)
    as Hearlier.
  { intros i e He Hi. destruct exit1.
    - destruct (Hover eq_refl) as (log0 & e' & -> & Hall & _).
      rewrite length_app in Hi. simpl in Hi.
      rewrite lookup_app_l in He by lia. apply (Forall_lookup_1 _ _ _ _ Hall He).
    - destruct (Hmax eq_refl) as [_ Hall]. apply (Forall_lookup_1 _ _ _ _ Hall He). }
  assert (exit1 = MaxEpochsEncountered ↔ Forall (λ e, 1 ≤ curr_patience e) log1)
    as Hfull.
  { split; [by intros [_ ?]%Hmax|]. intros Hall. destruct exit1; [|done]. exfalso.
    destruct (Hover eq_refl) as (log0 & e & -> & _ & Hlast).
    apply Forall_app in Hall as [_ Hall]. inversion Hall; subst. lia. }
  split; [done|]. split; [done|]. split; [done|]. split; [done|]. split; [done|].
  split; [by intros [? _]%Hmax|]. split; [intros Hvp; by apply Hnn|].
  split; [by exists (network b1)|].
  intros Hvp Hnum Haccs. rewrite Hvp in Hrule.
  destruct log1 as [|e0 log1].
  { destruct exit1; [by destruct (proj1 Hbreak eq_refl) as (? & ? & _)|].
    destruct (Hmax eq_refl) as [Hl _]. simpl in Hl. lia. }
  destruct Hrule as [H0 Hrule].
  pose proof (Haccs 0%nat e0 eq_refl ltac:(lia)) as [= Hacc0].
  rewrite <- Hacc0, ltb_first in H0. destruct H0 as [Hp0 Hb0].
  rewrite Hb0, Hp0 in Hrule.
  destruct log1 as [|e1 log1].
  { destruct exit1.
    - destruct (proj1 Hbreak eq_refl) as (e & [= <-] & Hlast). lia.
    - destruct (Hmax eq_refl) as [Hl _]. simpl in Hl. lia. }
  destruct Hrule as [H1 Hrule].
  pose proof (Haccs 1%nat e1 eq_refl ltac:(lia)) as [= Hacc1].
  rewrite <- Hacc1, ltb_second in H1. destruct H1 as [Hp1 Hb1].
  rewrite Hb1, Hp1 in Hrule.
  destruct log1 as [|e2 log1].
  { destruct exit1.
    - destruct (proj1 Hbreak eq_refl) as (e & [= <-] & Hlast). lia.
    - destruct (Hmax eq_refl) as [Hl _]. simpl in Hl. lia. }
  destruct Hrule as [H2 Hrule].
  pose proof (Haccs 2%nat e2 eq_refl ltac:(lia)) as [= Hacc2].
  rewrite <- Hacc2, ltb_third in H2. destruct H2 as [Hp2 Hb2].
  destruct log1 as [|e3 log1].
  - split; [|done]. destruct exit1; [done|].
    destruct (Hmax eq_refl) as [_ Hall].
    pose proof (Forall_lookup_1 _ _ 2%nat e2 Hall eq_refl). simpl in *. lia.
  - pose proof (Hearlier 2%nat e2 eq_refl). simpl in *. lia.
Qed.

End Epochs.

End Properties.

(** ** Further properties of the methods *)

Lemma float_zero_one_distinct : 0%float ≠ 1%float.
Proof.
  intros H. pose proof (f_equal (λ x, PrimFloat.ltb x 1%float) H) as Hlt.
  vm_compute in Hlt. discriminate Hlt.
Qed.




Section MoreProperties.

Context {Tr : TrackerI} {Tm : TemplateI}.
Variable cfg : GoalOrientedBotConfig.

(** *** The text the encoders receive *)


(** *** The action mask as the code computes it *)

(** X2.  [_action_mask] never raises; its mask has one entry per action,
    each 0 or 1; and the entry of an action is 0 exactly when masking is
    enabled, the text of the action's template contains the three characters
    of the searched pattern, and these three characters are a key of neither
    the tracker's state nor the stored database result. *)
Theorem action_mask_entries (b : Bot) :
  ∃ mask,
    _action_mask cfg b = Ok mask
    ∧ length mask = n_actions cfg
    ∧ ∀ a t, templates_list cfg !! a = Some t →
        (mask !! a = Some 0%float ∨ mask !! a = Some 1%float)
        ∧ (mask !! a = Some 0%float ↔
           use_action_mask cfg = true
           ∧ Py.findall "#{}" (template_str t) ≠ []
           ∧ get_state (tracker b) !! "#{}" = None
           ∧ ∀ d, db_result b = Some d → d !! "#{}" = None).
Proof.
  destruct (action_mask_Ok cfg b) as (mask & Hmask & Hlen & Hent).
  exists mask. split; [done|]. split; [done|]. intros a t Ht.
  rewrite (Hent a t Ht). split; [destruct (_ && _); auto|].
  assert (entity_unknown b "#{}" = true ↔
          get_state (tracker b) !! "#{}" = None
          ∧ ∀ d, db_result b = Some d → d !! "#{}" = None) as Hunknown.
  { unfold entity_unknown. rewrite andb_true_iff, !bool_decide_eq_true.
    destruct (db_result b) as [d|]; simpl.
    - split; [intros [? ?]; split; [done|by intros ? [= <-]] | intros [? H]; auto].
    - split; [intros [? _]; split; [done|intros ? [=]] | intros [? _]; split; [done|]].
      apply lookup_empty. }
  destruct (use_action_mask cfg); simpl.
  - destruct (masked b t) eqn:Em.
    + apply masked_literal in Em as [Hfound Hunk]. apply Hunknown in Hunk.
      split; [intros _; by repeat split; try apply Hunk | done].
    + split; [intros [= H]; by destruct float_zero_one_distinct|].
      intros (_ & Hfound & Hunk). apply Hunknown in Hunk.
      assert (masked b t = true) as Hm by (by apply masked_literal).
      congruence.
  - split; [intros [= H]; by destruct float_zero_one_distinct | by intros [? _]].
Qed.

(** *** The slot values of a response *)

(** X3.  The slot values [_decode_response] renders a template with are
    the tracker's state overlaid with the stored database result: a key of
    the database result gets [str] of its database value, any other key its
    value in the tracker's state. *)
Theorem response_slots_lookup (b : Bot) (k : string) :
  response_slots b !! k
  = match db_result b ≫= (λ d, d !! k) with
    | Some v => Some (Py.str v)
    | None => get_state (tracker b) !! k
    end.
Proof.
  unfold response_slots. destruct (db_result b) as [d|]; simpl; [|done].
  apply (map_fold_weak_ind
           (λ (r : gmap string string) (m : gmap string Py.value),
              r !! k = match m !! k with
                       | Some v => Some (Py.str v)
                       | None => get_state (tracker b) !! k
                       end)).
  - by rewrite lookup_empty.
  - intros i x m r Hi IH. destruct (decide (i = k)) as [->|Hne].
    + by rewrite !lookup_insert_eq.
    + by rewrite !lookup_insert_ne.
Qed.

(** *** Training: failures, calls and metrics *)

Lemma train_turn_unknown (st : Bot * DialogTurns) (c : Ctx.t) (r : Resp.t) :
  Resp.act r ∉ actions cfg → train_turn cfg st (c, r) = Raise ValueError.
Proof.
  intros Hnot. unfold train_turn. cbn [fst snd].
  destruct (_encode_response cfg (Resp.act r)) as [a|e] eqn:E.
  - apply encode_response_Ok in E as [Ha _]. destruct Hnot.
    apply list_elem_of_lookup. eauto.
  - apply index_from_Raise in E as [-> _]. reflexivity.
Qed.

Lemma train_turns_unknown (turns : list (Ctx.t * Resp.t)) (st : Bot * DialogTurns) :
  length (prev_action st.1) = n_actions cfg →
  ¬ Forall (λ turn, Resp.act turn.2 ∈ actions cfg) turns →
  for_each (train_turn cfg) turns st = Raise ValueError.
Proof.
  revert st. induction turns as [|[c r] turns IH]; intros st Hlen Hnot.
  - destruct Hnot. constructor.
  - cbn [for_each]. destruct (decide (Resp.act r ∈ actions cfg)) as [Hin|Hout].
    + destruct (train_turn_Ok cfg st c r Hin Hlen) as (st' & -> & Hlen').
      rewrite bind_ret. apply IH; [done|]. intros Hall. apply Hnot. by constructor.
    + by rewrite train_turn_unknown.
Qed.

(** X4.  A training dialog is processed to its end exactly when the label
    of every response that is paired with a context is in the action list;
    when one is not, both entry points raise a [ValueError]. *)
Theorem train_dialog_outcome (b : Bot) (contexts : list Ctx.t)
    (responses : list Resp.t) :
  ((∃ b', train_dialog cfg b (contexts, responses) = Ok b') ↔
   Forall (λ turn, Resp.act turn.2 ∈ actions cfg) (Py.zip contexts responses))
  ∧ (¬ Forall (λ turn, Resp.act turn.2 ∈ actions cfg) (Py.zip contexts responses) →
     train_dialog cfg b (contexts, responses) = Raise ValueError
     ∧ (train_now cfg = true →
        train_on_batch cfg b ([contexts], [responses]) = Raise ValueError)).
Proof.
  assert (¬ Forall (λ turn, Resp.act turn.2 ∈ actions cfg) (Py.zip contexts responses) →
     train_dialog cfg b (contexts, responses) = Raise ValueError
     ∧ (train_now cfg = true →
        train_on_batch cfg b ([contexts], [responses]) = Raise ValueError)) as Hfail.
  { intros Hnot. split.
    - rewrite train_dialog_enters. unfold train_dialog_turns. cbn [fst snd].
      rewrite train_turns_unknown; [done | apply length_replicate | done].
    - intros Hnow. rewrite (train_on_batch_enters _ _ _ _ Hnow).
      unfold train_dialog_turns. cbn [fst snd].
      rewrite train_turns_unknown; [done | apply length_replicate | done]. }
  split; [|done]. split.
  - intros [b' Hrun].
    destruct (decide (Forall (λ turn : Ctx.t * Resp.t, Resp.act turn.2 ∈ actions cfg)
                             (Py.zip contexts responses))) as [|Hnot]; [done|].
    destruct (Hfail Hnot) as [Hraise _]. congruence.
  - intros Hknown. by apply (train_dialog_Ok cfg b (contexts, responses)).
Qed.

Lemma train_on_batch_loop (dialogs : list (list Ctx.t * list Resp.t)) (b : Bot) :
  Forall (λ dialog : list Ctx.t * list Resp.t,
            Forall (λ turn, Resp.act turn.2 ∈ actions cfg) (Py.zip dialog.1 dialog.2))
         dialogs →
  ∃ b' ds,
    for_each (λ b dialog,
        let b := reset cfg b in
        st ← train_dialog_turns cfg b dialog;
        Ok (call_network_train cfg st.1 st.2).1) dialogs b = Ok b'
    ∧ network b' = network b ++ batch_calls ds
    ∧ Forall2 (λ (dialog : list Ctx.t * list Resp.t) d,
                 length (d_features d) = (length dialog.1 `min` length dialog.2)%nat
                 ∧ length (d_actions d) = (length dialog.1 `min` length dialog.2)%nat
                 ∧ length (d_masks d) = (length dialog.1 `min` length dialog.2)%nat)
              dialogs ds.
Proof.
  revert b. induction dialogs as [|[contexts responses] dialogs IH]; intros b Hknown.
  - exists b, []. unfold batch_calls. simpl. rewrite app_nil_r. by repeat split.
  - inversion Hknown as [|? ? Hd Hds]; subst. cbn [fst snd] in Hd.
    destruct (train_dialog_turns_lengths cfg b (metrics b) _ _ Hd)
      as (st & Hrun & Hnet & Hlf & Hla & Hlm).
    cbn [for_each]. cbv zeta.
    change (reset cfg b) with (set_metrics (reset cfg b) (metrics b)).
    rewrite Hrun, !bind_ret.
    destruct (IH (call_network_train cfg st.1 st.2).1 Hds)
      as (b' & ds & Hrun' & Hnet' & Hall).
    exists b', (st.2 :: ds). split; [exact Hrun'|]. split; [|by constructor].
    rewrite Hnet'. cbn [call_network_train fst network set_network].
    rewrite Hnet. unfold batch_calls. cbn [map concat]. by rewrite <- !app_assoc.
Qed.

(** X5.  [train_on_batch] on a batch whose labels are known makes, for
    each dialog of the batch in order, one [reset_state] call and one [train]
    call on the network, the [train] call carrying one feature vector, action
    id and mask per turn pair; the dialogs are the pairs of the two tuples of
    the batch, up to the end of the shorter one. *)
Theorem train_on_batch_calls (b : Bot) (batch : Batch) :
  train_now cfg = true →
  Forall (λ dialog : list Ctx.t * list Resp.t,
            Forall (λ turn, Resp.act turn.2 ∈ actions cfg) (Py.zip dialog.1 dialog.2))
         (Py.zip batch.1 batch.2) →
  ∃ b' ds,
    train_on_batch cfg b batch = Ok (b', Some ())
    ∧ network b' = network b ++ batch_calls ds
    ∧ length ds = (length batch.1 `min` length batch.2)%nat
    ∧ Forall2 (λ (dialog : list Ctx.t * list Resp.t) d,
                 length (d_features d) = (length dialog.1 `min` length dialog.2)%nat
                 ∧ length (d_actions d) = (length dialog.1 `min` length dialog.2)%nat
                 ∧ length (d_masks d) = (length dialog.1 `min` length dialog.2)%nat)
              (Py.zip batch.1 batch.2) ds.
Proof.
  intros Hnow Hknown. unfold train_on_batch, check_attr_true. rewrite Hnow.
  destruct (train_on_batch_loop _ b Hknown) as (b' & ds & Hrun & Hnet & Hall).
  exists b', ds. split; [by eapply bind_intro|]. split; [done|]. split; [|done].
  rewrite <- zip_length. symmetry. by eapply Forall2_length.
Qed.

Lemma count_examples_fold (loss : float) (l : list (nat * nat)) (m : DialogMetrics) :
  n_dialogs (fold_left (count_example loss) l m) = n_dialogs m
  ∧ n_examples (fold_left (count_example loss) l m) = n_examples m + Z.of_nat (length l)
  ∧ ∀ q, default 0 (conf_matrix (fold_left (count_example loss) l m) !! q)
         = default 0 (conf_matrix m !! q) + Z.of_nat (length (filter (λ x, x = q) l)).
Proof.
  revert m. induction l as [|p l IH]; intros m; cbn [fold_left].
  - repeat split; [simpl; lia|]. intros q. rewrite filter_nil. simpl. lia.
  - destruct (IH (count_example loss m p)) as (Hd & He & Hc).
    rewrite Hd, He. cbn [count_example n_dialogs n_examples length].
    split; [done|]. split; [lia|]. intros q. rewrite Hc. cbn [count_example conf_matrix].
    rewrite filter_cons. destruct (decide (p = q)) as [->|Hne].
    + rewrite lookup_insert_eq. cbn [length default]. unfold id. lia.
    + rewrite lookup_insert_ne by done. lia.
Qed.

Lemma train_turns_metrics (turns : list (Ctx.t * Resp.t)) (st st' : Bot * DialogTurns) :
  for_each (train_turn cfg) turns st = Ok st' → metrics st'.1 = metrics st.1.
Proof.
  revert st. induction turns as [|[c r] turns IH]; intros st Hrun; cbn [for_each] in Hrun.
  - by injection Hrun as <-.
  - apply bind_Ok in Hrun as (st1 & Hturn & Hrun). rewrite (IH _ Hrun).
    apply train_turn_inv in Hturn as (a & mask & _ & _ & -> & _).
    cbn [metrics set_prev_action].
    destruct (store_db_result_frame
                (_encode_context cfg st.1 (Ctx.text c) (Ctx.db_result c)).1
                (Ctx.db_result c)) as (_ & _ & _ & _ & ->).
    by destruct (encode_context_frame cfg st.1 (Ctx.text c) (Ctx.db_result c))
      as (_ & _ & _ & ->).
Qed.

(** X6.  A training dialog of [train] counts itself once and counts one
    example per pair of a predicted and a true action id: as many as the
    shorter of the predictions the network returns and the turns processed;
    each pair adds one to its cell of the confusion matrix. *)
Theorem train_dialog_metrics (b b' : Bot) (dialog : list Ctx.t * list Resp.t) :
  train_dialog cfg b dialog = Ok b' →
  ∃ st,
    train_dialog_turns cfg (set_metrics (reset cfg b) (count_dialog (metrics b))) dialog
    = Ok st
    ∧ let d_preds :=
        (network_train cfg (network st.1) (d_features st.2) (d_actions st.2)
                       (d_masks st.2)).2 in
      n_dialogs (metrics b') = n_dialogs (metrics b) + 1
      ∧ n_examples (metrics b')
        = n_examples (metrics b)
          + Z.of_nat (length d_preds `min` length (d_actions st.2))
      ∧ ∀ pred_id action_id,
          default 0 (conf_matrix (metrics b') !! (pred_id, action_id))
          = default 0 (conf_matrix (metrics b) !! (pred_id, action_id))
            + Z.of_nat (length (filter (λ x, x = (pred_id, action_id))
                                       (Py.zip d_preds (d_actions st.2)))).
Proof.
  rewrite train_dialog_enters. intros Hrun.
  apply bind_Ok in Hrun as (st & Hturns & Hrun). exists st. split; [done|].
  cbv zeta in Hrun. injection Hrun as <-.
  pose proof (train_turns_metrics _ _ _ Hturns) as Hm. cbn [fst] in Hm.
  cbn [metrics set_metrics call_network_train fst snd set_network].
  destruct (count_examples_fold
              (network_train cfg (network st.1) (d_features st.2) (d_actions st.2)
                             (d_masks st.2)).1
              (Py.zip (network_train cfg (network st.1) (d_features st.2)
                                     (d_actions st.2) (d_masks st.2)).2
                      (d_actions st.2))
              (metrics st.1)) as (Hd & He & Hc).
  rewrite Hm in Hd, He, Hc |- *. rewrite Hd, He, zip_length.
  split; [done|]. split; [done|]. intros p a. by rewrite Hc.
Qed.

(** X7.  Two edge cases of the epoch loop of [train]: with [num_epochs]
    zero no epoch is run and the network is saved at once; with a configured
    patience below one the loop breaks after its first epoch, whatever the
    validation accuracy of that epoch. *)
Theorem train_edge_cases (evaluate : list Batch → Bot → Bot * float) (data : Data)
    (b b' : Bot) (exit : TrainExit) (log : list EpochLog) :
  train cfg evaluate b data = Ok (b', Some (exit, log)) →
  (num_epochs cfg = 0%nat →
   exit = MaxEpochsEncountered ∧ log = [] ∧ b' = save b)
  ∧ (val_patience cfg < 1 → num_epochs cfg ≠ 0%nat →
     exit = PatienceOver ∧ length log = 1%nat).
Proof.
  unfold train, check_attr_true. intros Hrun.
  destruct (train_now cfg); [|discriminate Hrun].
  destruct (network_train_now cfg); [|discriminate Hrun]. cbn [negb] in Hrun.
  apply bind_Ok in Hrun as ([b1 [exit1 log1]] & Hloop & Hrun).
  apply Ok_pair_inj in Hrun as [<- [= <- <-]]. split.
  - intros Hzero. rewrite Hzero in Hloop. cbn [train_epochs] in Hloop.
    by apply Ok_pair_inj in Hloop as [<- [= <- <-]].
  - intros Hvp Hnum. destruct (num_epochs cfg) as [|k]; [done|].
    cbn [train_epochs] in Hloop.
    apply bind_Ok in Hloop as (ep & _ & Hloop). cbv zeta in Hloop.
    pose proof (update_patience_rule cfg (val_patience cfg) 0%float ep.2) as Hupd.
    destruct (Z.ltb_spec (update_patience cfg (val_patience cfg) 0%float ep.2).1 1)
      as [_|Hge].
    + by apply Ok_pair_inj in Hloop as [_ [= <- <-]].
    + destruct (PrimFloat.ltb ep.2 0%float); destruct Hupd as [Hp _]; lia.
Qed.

(** X8.  Nothing of the database result and the previous-action memory a
    bot holds reaches its next dialog: two bots with the same tracker,
    network and metrics process an inference dialog, a training dialog and a
    non-empty batch of inference dialogs in the same way. *)
Theorem dialog_isolation (b1 b2 : Bot) :
  tracker b1 = tracker b2 → network b1 = network b2 → metrics b1 = metrics b2 →
  (∀ contexts, _infer_dialog cfg b1 contexts = _infer_dialog cfg b2 contexts)
  ∧ (∀ dialog, train_dialog cfg b1 dialog = train_dialog cfg b2 dialog)
  ∧ (∀ x xs, infer cfg b1 (OfBatch (x :: xs)) = infer cfg b2 (OfBatch (x :: xs))).
Proof.
  intros Ht Hn Hm.
  assert (reset cfg b1 = reset cfg b2) as Hreset
    by (unfold reset; by rewrite Ht, Hn, Hm).
  assert (∀ contexts, _infer_dialog cfg b1 contexts = _infer_dialog cfg b2 contexts)
    as Hdialog by (intros contexts; unfold _infer_dialog; by rewrite Hreset).
  split; [done|]. split.
  - intros dialog. unfold train_dialog. by rewrite Hreset.
  - intros x xs. cbn [infer infer_on_batch for_each fst]. by rewrite Hdialog.
Qed.

(** *** Inference: outcome, reads and shape *)

Lemma argmax_from_lt (a : list float) (i : nat) (mp : float) (max_ind : nat) :
  (max_ind < i + length a)%nat → (Np.argmax_from a i mp max_ind < i + length a)%nat.
Proof.
  revert i mp max_ind.
  induction a as [|x a IH]; intros i mp max_ind H; cbn [Np.argmax_from length] in *; [done|].
  destruct (negb (PrimFloat.leb x mp)).
  - destruct (PrimFloat.is_nan x); [lia|]. specialize (IH (S i) x i). lia.
  - specialize (IH (S i) mp max_ind). lia.
Qed.

Lemma argmax_lt (a : list float) (p : nat) : Np.argmax a = Ok p → (p < length a)%nat.
Proof.
  destruct a as [|x a]; [done|]. cbn [Np.argmax length]. intros [= <-].
  destruct (PrimFloat.is_nan x); [lia|]. pose proof (argmax_from_lt a 1 x 0). lia.
Qed.

Lemma argmax_Ok (a : list float) : a ≠ [] → ∃ p, Np.argmax a = Ok p.
Proof. destruct a; [done|]. cbn [Np.argmax]. eauto. Qed.

Lemma argmax_Raise (a : list float) (e : PyError) :
  Np.argmax a = Raise e → a = [] ∧ e = ValueError.
Proof. destruct a; [by intros [= <-] | done]. Qed.

Lemma memory_ok_inv (v : list float) :
  memory_ok cfg v → zero_one v ∧ length v = n_actions cfg.
Proof.
  intros [-> | (a & _ & ->)].
  - split; [apply zero_one_zeros | apply length_replicate].
  - split; [apply zero_one_onehot | apply onehot_length].
Qed.

Lemma force_memory_ok (v : list float) (a : nat) :
  memory_ok cfg v → (a < length v)%nat →
  <[a := 1%float]> (Np.imul v 0%float) = onehot (n_actions cfg) a
  ∧ memory_ok cfg (<[a := 1%float]> (Np.imul v 0%float)).
Proof.
  intros Hv Ha. destruct (memory_ok_inv v Hv) as [Hz Hl].
  rewrite (force_zero_one v a Hz), Hl. split; [done|]. right. exists a. split; [lia|done].
Qed.

Lemma action_mask_ext (b1 b2 : Bot) :
  tracker b1 = tracker b2 → db_result b1 = db_result b2 →
  _action_mask cfg b1 = _action_mask cfg b2.
Proof. intros Ht Hd. unfold _action_mask, entity_unknown. by rewrite Ht, Hd. Qed.

Lemma infer_run (b : Bot) (text : string) (dbr : option (gmap string Py.value))
    (mask : list float) (pred_id : nat) (t : template) :
  length (prev_action b) = n_actions cfg →
  _action_mask cfg (_encode_context cfg b text dbr).1 = Ok mask →
  Np.argmax (network_infer cfg (network b) (_encode_context cfg b text dbr).2 mask)
  = Ok pred_id →
  templates_list cfg !! pred_id = Some t →
  ∃ b',
    _infer cfg b text dbr false = Ok (b', generate_text t (response_slots b'))
    ∧ network b' = network b ++ [NetInfer (_encode_context cfg b text dbr).2 mask]
    ∧ db_result b' = from_option Some (db_result b) dbr
    ∧ tracker b' = tracker (_encode_context cfg b text dbr).1
    ∧ prev_action b' = <[pred_id := 1%float]> (Np.imul (prev_action b) 0%float).
Proof.
  intros Hlen Hmask Hmax Ht.
  destruct (encode_context_frame cfg b text dbr) as (Hdb & Hpa & Hnet & Hmet).
  pose proof (store_db_result_frame
                (set_network (_encode_context cfg b text dbr).1
                   (network b ++ [NetInfer (_encode_context cfg b text dbr).2 mask])) dbr)
    as (Hsdb & Hstr & Hspa & Hsnet & Hsmet).
  cbn [db_result tracker metrics network prev_action set_network] in *.
  assert (pred_id < n_actions cfg)%nat as Hlt
    by (rewrite <- (templates_list_length cfg); by eapply lookup_lt_Some).
  unfold _infer. cbv zeta. rewrite Hmask, bind_ret, Hnet, Hmax, bind_ret.
  rewrite force_prev_action_Ok by (rewrite Hspa, Hpa; lia). rewrite bind_ret.
  rewrite (decode_response_nat cfg _ _ _ Ht), bind_ret.
  eexists. split; [reflexivity|].
  cbn [db_result tracker network prev_action set_prev_action].
  by rewrite Hsnet, Hsdb, Hstr, Hspa, Hdb, Hpa.
Qed.

(** X9.  The three outcomes of [_infer] with [prob] false, on a bot whose
    memory is all zeros or the one-hot vector of an action.  The mask is computed on the bot as the
    encoding leaves it, before the database result of the turn is stored.
    When the network returns no probability, [argmax] raises a [ValueError];
    when the winning position is not the id of an action, writing the memory
    raises an [IndexError]; otherwise the call returns the text of the
    winning template, filled from the bot as the call leaves it: with the
    database result of the turn stored and the memory set to the one-hot
    vector of the winner. *)
Theorem infer_outcome (b : Bot) (text : string) (dbr : option (gmap string Py.value)) :
  memory_ok cfg (prev_action b) →
  ∃ mask,
    _action_mask cfg (_encode_context cfg b text dbr).1 = Ok mask
    ∧ match Np.argmax (network_infer cfg (network b)
                                     (_encode_context cfg b text dbr).2 mask) with
      | Raise _ => _infer cfg b text dbr false = Raise ValueError
      | Ok pred_id =>
          match templates_list cfg !! pred_id with
          | None => _infer cfg b text dbr false = Raise IndexError
          | Some t =>
              ∃ b',
                _infer cfg b text dbr false
                = Ok (b', generate_text t (response_slots b'))
                ∧ network b'
                  = network b ++ [NetInfer (_encode_context cfg b text dbr).2 mask]
                ∧ db_result b' = from_option Some (db_result b) dbr
                ∧ prev_action b' = onehot (n_actions cfg) pred_id
          end
      end.
Proof.
  intros Hmem. destruct (memory_ok_inv _ Hmem) as [_ Hlen].
  destruct (action_mask_Ok cfg (_encode_context cfg b text dbr).1) as (mask & Hmask & _).
  exists mask. split; [done|].
  destruct (encode_context_frame cfg b text dbr) as (Hdb & Hpa & Hnet & Hmet).
  destruct (Np.argmax _) as [pred_id|e] eqn:Hmax.
  - destruct (templates_list cfg !! pred_id) as [t|] eqn:Ht.
    + destruct (infer_run b text dbr mask pred_id t Hlen Hmask Hmax Ht)
        as (b' & Hrun & Hnet' & Hdb' & _ & Hpa').
      exists b'. repeat (split; [done|]). rewrite Hpa'.
      apply force_memory_ok; [done|]. apply lookup_lt_Some in Ht.
      rewrite (templates_list_length cfg) in Ht. lia.
    + unfold _infer. cbv zeta. rewrite Hmask, bind_ret, Hnet, Hmax, bind_ret.
      unfold force_prev_action, Py.setitem.
      destruct (store_db_result_frame
                  (set_network (_encode_context cfg b text dbr).1
                     (network b ++ [NetInfer (_encode_context cfg b text dbr).2 mask])) dbr)
        as (_ & _ & Hspa & _).
      rewrite decide_False; [done|].
      rewrite imul_length, Hspa. cbn [prev_action set_network]. rewrite Hpa, Hlen.
      apply lookup_ge_None in Ht. rewrite (templates_list_length cfg) in Ht. lia.
  - unfold _infer. cbv zeta. rewrite Hmask, bind_ret, Hnet, Hmax.
    by apply argmax_Raise in Hmax as [_ ->].
Qed.

Lemma infer_turns_reads (contexts : list Ctx.t) (st st' : Bot * list string) :
  for_each (λ st context,
      b ← match Ctx.prev_resp_act context with
          | Some prev_resp_act =>
              action_id ← _encode_response cfg prev_resp_act;
              force_prev_action st.1 action_id
          | None => Ok st.1
          end;
      r ← _infer cfg b (Ctx.text context) (Ctx.db_result context) false;
      Ok (r.1, st.2 ++ [r.2]))
    contexts st = Ok st' →
  memory_ok cfg (prev_action st.1) →
  ∃ calls,
    network st'.1 = network st.1 ++ calls
    ∧ infer_reads cfg (network st.1) (prev_action st.1) (db_result st.1) contexts calls
    ∧ db_result st'.1 = stored_db (db_result st.1) contexts
    ∧ length st'.2 = (length st.2 + length contexts)%nat
    ∧ memory_ok cfg (prev_action st'.1).
Proof.
  revert st. induction contexts as [|c contexts IH]; intros st Hrun Hmem;
    cbn [for_each] in Hrun.
  - injection Hrun as <-. exists []. rewrite app_nil_r. cbn [infer_reads length].
    repeat split; [lia | done].
  - apply bind_Ok in Hrun as (st1 & Hturn & Hrun).
    apply bind_Ok in Hturn as (b1 & Hforce & Hturn).
    apply bind_Ok in Hturn as ([b2 r] & Hinf & Hturn).
    injection Hturn as <-. cbn [fst snd] in *.
    assert (match Ctx.prev_resp_act c with
            | Some label =>
                ∃ a, _encode_response cfg label = Ok a
                     ∧ prev_action b1 = onehot (n_actions cfg) a
            | None => prev_action b1 = prev_action st.1
            end
            ∧ network b1 = network st.1 ∧ db_result b1 = db_result st.1
            ∧ memory_ok cfg (prev_action b1)) as (Hread & Hnet1 & Hdb1 & Hmem1).
    { destruct (Ctx.prev_resp_act c) as [label|].
      - apply bind_Ok in Hforce as (a & Henc & Hforce).
        apply force_prev_action_inv in Hforce as [Hlt ->].
        cbn [prev_action network db_result set_prev_action].
        destruct (force_memory_ok _ a Hmem Hlt) as [-> Hok]. eauto 10.
      - by injection Hforce as <-. }
    apply infer_inv in Hinf
      as (mask & pred & Hmask & Hmax & Hnet & Hdb & Htr & Hmet & Hpa & Hdec).
    destruct (Hpa eq_refl) as [Hlt Hpa'].
    destruct (force_memory_ok _ pred Hmem1 Hlt) as [Hhot Hmem2].
    rewrite Hhot in Hpa'. destruct (memory_ok_inv _ Hmem1) as [_ Hlen1].
    destruct (IH (b2, st.2 ++ [r]) Hrun) as (calls & Hnet' & Hreads & Hdb' & Hlen & Hmem').
    { cbn [fst]. rewrite Hpa'. right. exists pred. split; [lia|done]. }
    cbn [fst snd] in *.
    exists (NetInfer (_encode_context cfg b1 (Ctx.text c) (Ctx.db_result c)).2 mask
            :: calls).
    split; [by rewrite Hnet', Hnet, Hnet1, <- app_assoc|].
    split.
    { cbn [infer_reads]. eexists (prev_action b1), pred, _.
      split; [by destruct (Ctx.prev_resp_act c)|].
      split; [rewrite encode_context_layout, Hdb1; apply app_assoc4|].
      rewrite <- Hnet1. split; [done|]. split; [lia|].
      by rewrite <- Hnet, <- Hpa', <- Hdb1, <- Hdb. }
    split; [by rewrite Hdb', Hdb, Hdb1|].
    split; [|done]. rewrite Hlen, length_app. cbn [length]. lia.
Qed.

(** X10.  What the turns of an inference dialog read.  The dialog starts
    with a [reset_state] call, the memory all zeros and no database result;
    then each turn makes one [infer] call.  A turn that carries a
    [prev_resp_act] reads the one-hot vector of that label (teacher forcing),
    any other turn reads the one-hot vector of the action the network chose at
    the turn before (at the first turn: zeros); the result flag of a turn is
    the one stored before it; and the database result the dialog leaves is
    the last one a turn carried. *)
Theorem infer_dialog_reads (b b' : Bot) (contexts : list Ctx.t) (rs : list string) :
  _infer_dialog cfg b contexts = Ok (b', rs) →
  ∃ calls,
    network b' = network b ++ NetResetState :: calls
    ∧ infer_reads cfg (network b ++ [NetResetState]) (Np.zeros (n_actions cfg)) None
                  contexts calls
    ∧ db_result b' = stored_db None contexts
    ∧ length rs = length contexts.
Proof.
  unfold _infer_dialog. intros Hrun.
  apply infer_turns_reads in Hrun as (calls & Hnet & Hreads & Hdb & Hlen & _);
    [|by left].
  cbn [fst snd reset network prev_action db_result length] in *.
  exists calls. rewrite Hnet, <- app_assoc. by repeat split.
Qed.

Lemma infer_turns_succeed (contexts : list Ctx.t) (st : Bot * list string) :
  (∀ net features mask, length mask = n_actions cfg →
     length (network_infer cfg net features mask) = n_actions cfg) →
  n_actions cfg ≠ 0%nat →
  Forall (λ c, ∀ label, Ctx.prev_resp_act c = Some label → label ∈ actions cfg)
         contexts →
  length (prev_action st.1) = n_actions cfg →
  ∃ st',
    for_each (λ st context,
        b ← match Ctx.prev_resp_act context with
            | Some prev_resp_act =>
                action_id ← _encode_response cfg prev_resp_act;
                force_prev_action st.1 action_id
            | None => Ok st.1
            end;
        r ← _infer cfg b (Ctx.text context) (Ctx.db_result context) false;
        Ok (r.1, st.2 ++ [r.2]))
      contexts st = Ok st'
    ∧ length (prev_action st'.1) = n_actions cfg.
Proof.
  intros Hnetlen Hpos. revert st.
  induction contexts as [|c contexts IH]; intros st Hknown Hlen; cbn [for_each].
  - by exists st.
  - inversion Hknown as [|? ? Hc Hcs]; subst.
    assert (∃ b1,
        match Ctx.prev_resp_act c with
        | Some prev_resp_act =>
            action_id ← _encode_response cfg prev_resp_act;
            force_prev_action st.1 action_id
        | None => Ok st.1
        end = Ok b1 ∧ length (prev_action b1) = n_actions cfg) as (b1 & -> & Hlen1).
    { destruct (Ctx.prev_resp_act c) as [label|]; [|by exists st.1].
      destruct (encode_response_known cfg label (Hc label eq_refl)) as [a Ha].
      pose proof (encode_response_lt cfg _ _ Ha) as Hlt.
      rewrite Ha, bind_ret, force_prev_action_Ok by lia.
      eexists. split; [done|]. cbn [prev_action set_prev_action].
      by rewrite length_insert, imul_length. }
    rewrite bind_ret.
    destruct (action_mask_Ok cfg (_encode_context cfg b1 (Ctx.text c) (Ctx.db_result c)).1)
      as (mask & Hmask & Hmlen & _).
    destruct (argmax_Ok (network_infer cfg (network b1)
                (_encode_context cfg b1 (Ctx.text c) (Ctx.db_result c)).2 mask))
      as [pred Hmax].
    { intros Hnil. apply (f_equal length) in Hnil. rewrite Hnetlen in Hnil by done.
      cbn [length] in Hnil. lia. }
    pose proof (argmax_lt _ _ Hmax) as Hlt. rewrite Hnetlen in Hlt by done.
    destruct (lookup_lt_is_Some_2 (templates_list cfg) pred) as [t Ht];
      [by rewrite (templates_list_length cfg)|].
    destruct (infer_run b1 _ _ mask pred t Hlen1 Hmask Hmax Ht)
      as (b2 & -> & _ & _ & _ & Hpa).
    rewrite bind_ret. cbn [fst snd].
    apply IH; [done|]. cbn [fst]. by rewrite Hpa, length_insert, imul_length.
Qed.

Lemma infer_on_batch_succeeds (xs : list (list Ctx.t)) (st : Bot * list (list string)) :
  (∀ net features mask, length mask = n_actions cfg →
     length (network_infer cfg net features mask) = n_actions cfg) →
  n_actions cfg ≠ 0%nat →
  Forall (Forall (λ c, ∀ label, Ctx.prev_resp_act c = Some label → label ∈ actions cfg))
         xs →
  ∃ st', for_each (λ st x, r ← _infer_dialog cfg st.1 x; Ok (r.1, st.2 ++ [r.2])) xs st
         = Ok st'.
Proof.
  intros Hnetlen Hpos. revert st.
  induction xs as [|x xs IH]; intros st Hknown; cbn [for_each]; [by exists st|].
  inversion Hknown as [|? ? Hx Hxs]; subst.
  destruct (infer_turns_succeed x (reset cfg st.1, []) Hnetlen Hpos Hx)
    as (st1 & Hrun & _); [apply length_replicate|].
  unfold _infer_dialog. rewrite Hrun, !bind_ret. by apply IH.
Qed.

(** X11.  When inference cannot fail.  If there is at least one action,
    the network answers a mask of one entry per action with one probability
    per action, and every [prev_resp_act] of the dialogs is an action label,
    then [infer] returns: on a string, given a memory of one entry per
    action, and on any batch of dialogs. *)
Theorem infer_succeeds (b : Bot) (x : InferArg) :
  (∀ net features mask, length mask = n_actions cfg →
     length (network_infer cfg net features mask) = n_actions cfg) →
  n_actions cfg ≠ 0%nat →
  match x with
  | OfStr _ => length (prev_action b) = n_actions cfg
  | OfBatch xs =>
      Forall (Forall (λ c, ∀ label, Ctx.prev_resp_act c = Some label →
                                    label ∈ actions cfg)) xs
  end →
  ∃ b' r, infer cfg b x = Ok (b', r).
Proof.
  intros Hnetlen Hpos Hx. destruct x as [text|xs]; cbn [infer].
  - destruct (infer_turns_succeed
                [{| Ctx.text := text; Ctx.db_result := None; Ctx.prev_resp_act := None |}]
                (b, []) Hnetlen Hpos) as (st' & Hrun & _); [|done|].
    { constructor; [|constructor]. intros label [=]. }
    cbn [for_each Ctx.prev_resp_act Ctx.text Ctx.db_result fst snd] in Hrun.
    rewrite bind_ret in Hrun. apply bind_Ok in Hrun as (st1 & Hinf & _).
    apply bind_Ok in Hinf as (r & -> & _). rewrite bind_ret. eauto.
  - destruct (infer_on_batch_succeeds xs (b, []) Hnetlen Hpos Hx) as [st' Hrun].
    unfold infer_on_batch. rewrite Hrun, bind_ret. eauto.
Qed.

Lemma infer_on_batch_run (xs : list (list Ctx.t)) (st st' : Bot * list (list string)) :
  for_each (λ st x, r ← _infer_dialog cfg st.1 x; Ok (r.1, st.2 ++ [r.2])) xs st
  = Ok st' →
  ∃ rs,
    st'.2 = st.2 ++ rs
    ∧ Forall2 (λ (x : list Ctx.t) (r : list string), length r = length x) xs rs
    ∧ (xs = [] → st'.1 = st.1)
    ∧ (∀ x, last xs = Some x →
         db_result st'.1 = stored_db None x ∧ memory_ok cfg (prev_action st'.1)).
Proof.
  revert st. induction xs as [|x xs IH]; intros st Hrun; cbn [for_each] in Hrun.
  - injection Hrun as <-. exists []. rewrite app_nil_r. by repeat split.
  - apply bind_Ok in Hrun as (st1 & Hturn & Hrun).
    apply bind_Ok in Hturn as ([b1 r] & Hdialog & Hturn). injection Hturn as <-.
    cbn [fst snd] in *.
    destruct (IH _ Hrun) as (rs & Hrs & Hall & Hnil & Hlast). cbn [fst snd] in *.
    unfold _infer_dialog in Hdialog.
    apply infer_turns_reads in Hdialog as (calls & _ & _ & Hdb & Hlen & Hmem);
      [|by left].
    cbn [fst snd reset db_result length] in *.
    exists (r :: rs). split; [by rewrite Hrs, <- app_assoc|].
    split; [by constructor|]. split; [done|].
    intros y Hy. destruct xs as [|x' xs].
    + injection Hy as <-. by rewrite (Hnil eq_refl).
    + by apply Hlast.
Qed.

(** X12.  [infer] on a batch returns one list of responses per dialog, in
    order, each with one response per turn.  An empty batch leaves the bot
    as it is, without a reset; after any other batch the bot holds the state
    of the last dialog only: the last database result a turn of that dialog
    carried, if any. *)
Theorem infer_batch_shape (b b' : Bot) (xs : list (list Ctx.t)) (res : InferResult) :
  infer cfg b (OfBatch xs) = Ok (b', res) →
  ∃ rs,
    res = Responses rs
    ∧ Forall2 (λ (x : list Ctx.t) (r : list string), length r = length x) xs rs
    ∧ (xs = [] → b' = b)
    ∧ (∀ x, last xs = Some x → db_result b' = stored_db None x).
Proof.
  cbn [infer]. unfold infer_on_batch. intros Hrun.
  apply bind_Ok in Hrun as (st' & Hrun & Hret). injection Hret as <- <-.
  apply infer_on_batch_run in Hrun as (rs & Hrs & Hall & Hnil & Hlast).
  cbn [fst snd app] in *. exists rs. repeat split; [by f_equal | done | done |].
  intros x Hx. by apply Hlast.
Qed.

Lemma train_turns_memory (turns : list (Ctx.t * Resp.t)) (st st' : Bot * DialogTurns) :
  for_each (train_turn cfg) turns st = Ok st' →
  memory_ok cfg (prev_action st.1) → memory_ok cfg (prev_action st'.1).
Proof.
  revert st. induction turns as [|[c r] turns IH]; intros st Hrun Hmem;
    cbn [for_each] in Hrun.
  - by injection Hrun as <-.
  - apply bind_Ok in Hrun as (st1 & Hturn & Hrun). apply (IH _ Hrun).
    apply train_turn_inv in Hturn as (a & mask & _ & Hlt & -> & _).
    cbn [prev_action set_prev_action]. by apply force_memory_ok.
Qed.

Lemma train_on_batch_memory (dialogs : list (list Ctx.t * list Resp.t)) (b b' : Bot) :
  for_each (λ b dialog,
      let b := reset cfg b in
      st ← train_dialog_turns cfg b dialog;
      Ok (call_network_train cfg st.1 st.2).1) dialogs b = Ok b' →
  memory_ok cfg (prev_action b) → memory_ok cfg (prev_action b').
Proof.
  revert b. induction dialogs as [|dialog dialogs IH]; intros b Hrun Hmem;
    cbn [for_each] in Hrun.
  - by injection Hrun as <-.
  - apply bind_Ok in Hrun as (b1 & Hdialog & Hrun). apply (IH _ Hrun).
    cbv zeta in Hdialog. apply bind_Ok in Hdialog as (st & Hturns & Hret).
    injection Hret as <-. cbn [call_network_train fst prev_action set_network].
    apply (train_turns_memory _ _ _ Hturns). by left.
Qed.

(** X13.  An invariant of the previous-action memory: it is all zeros or
    the one-hot vector of an action, with one entry per action.  [__init__]
    and [reset] establish it, and [infer], [train_on_batch] and a training
    dialog of [train] keep it. *)
Theorem memory_invariant (b : Bot) :
  memory_ok cfg (prev_action b) →
  (∀ t, memory_ok cfg (prev_action (init cfg t)))
  ∧ memory_ok cfg (prev_action (reset cfg b))
  ∧ (∀ x b' r, infer cfg b x = Ok (b', r) → memory_ok cfg (prev_action b'))
  ∧ (∀ batch b' r, train_on_batch cfg b batch = Ok (b', r) →
       memory_ok cfg (prev_action b'))
  ∧ (∀ dialog b', train_dialog cfg b dialog = Ok b' → memory_ok cfg (prev_action b')).
Proof.
  intros Hmem. split; [by left|]. split; [by left|]. split; [|split].
  - intros [text|xs] b' r Hrun; cbn [infer] in Hrun.
    + apply bind_Ok in Hrun as ([b1 s] & Hinf & Hret). injection Hret as <- _.
      apply infer_inv in Hinf as (mask & pred & _ & _ & _ & _ & _ & _ & Hpa & _).
      destruct (Hpa eq_refl) as [Hlt ->]. by apply force_memory_ok.
    + unfold infer_on_batch in Hrun.
      apply bind_Ok in Hrun as (st' & Hrun & Hret). injection Hret as <- _.
      apply infer_on_batch_run in Hrun as (rs & _ & _ & Hnil & Hlast).
      destruct (last xs) as [x|] eqn:Hx.
      * by apply (Hlast x).
      * apply last_None in Hx. by rewrite (Hnil Hx).
  - intros batch b' r. unfold train_on_batch, check_attr_true.
    destruct (train_now cfg); [|by intros [= <- _]].
    intros Hrun. apply bind_Ok in Hrun as (b1 & Hloop & Hret). injection Hret as <- _.
    by apply (train_on_batch_memory _ _ _ Hloop).
  - intros dialog b'. rewrite train_dialog_enters. intros Hrun.
    apply bind_Ok in Hrun as (st & Hturns & Hret). cbv zeta in Hret.
    injection Hret as <-. cbn [call_network_train fst prev_action set_network set_metrics].
    apply (train_turns_memory _ _ _ Hturns). by left.
Qed.

(** X14.  Training and inference compute the mask of a turn at different
    moments.  From the same state, on the same context, both encode the same
    features; the mask a training turn records is the one the bot has after
    the turn, with the database result of the turn stored, while the mask
    [_infer] submits is computed before that result is stored.  The two agree
    when the turn carries no database result. *)
Theorem mask_timing (b b' : Bot) (c : Ctx.t) (r : Resp.t) (st' : Bot * DialogTurns)
    (response : string) :
  train_turn cfg (b, no_turns) (c, r) = Ok st' →
  _infer cfg b (Ctx.text c) (Ctx.db_result c) false = Ok (b', response) →
  ∃ features mask_train mask_infer,
    d_features st'.2 = [features] ∧ d_masks st'.2 = [mask_train]
    ∧ network b' = network b ++ [NetInfer features mask_infer]
    ∧ _action_mask cfg b' = Ok mask_train
    ∧ _action_mask cfg (_encode_context cfg b (Ctx.text c) (Ctx.db_result c)).1
      = Ok mask_infer
    ∧ (Ctx.db_result c = None → mask_infer = mask_train).
Proof.
  intros Hturn Hinf.
  apply train_turn_inv in Hturn as (a & mask_train & _ & _ & Hb & Hmask & Hturns).
  apply infer_inv in Hinf as (mask_infer & pred & Hmask' & _ & Hnet & Hdb & Htr & _).
  cbn [fst snd] in *.
  destruct (store_db_result_frame
              (_encode_context cfg b (Ctx.text c) (Ctx.db_result c)).1 (Ctx.db_result c))
    as (Hsdb & Hstr & _).
  destruct (encode_context_frame cfg b (Ctx.text c) (Ctx.db_result c)) as (Hedb & _).
  assert (_action_mask cfg b' = Ok mask_train) as Hafter.
  { rewrite <- Hmask. apply action_mask_ext; rewrite Hb; cbn [tracker db_result set_prev_action].
    - by rewrite Htr, Hstr.
    - by rewrite Hdb, Hsdb, Hedb. }
  exists (_encode_context cfg b (Ctx.text c) (Ctx.db_result c)).2, mask_train, mask_infer.
  rewrite Hturns. cbn [d_features d_masks no_turns app].
  repeat (split; [done|]). intros Hnone.
  assert (Ok mask_infer = Ok mask_train) as [= ->]; [|done].
  rewrite <- Hmask', <- Hafter. apply action_mask_ext; [done|].
  by rewrite Hdb, Hedb, Hnone.
Qed.

(** X15.  A [prev_resp_act] that is not an action label aborts an
    inference dialog: when the turns before it have been answered, the
    lookup of the label raises a [ValueError], whatever the later turns
    are. *)
Theorem infer_dialog_unknown_label (b b1 : Bot) (rs : list string)
    (before after : list Ctx.t) (c : Ctx.t) (label : string) :
  _infer_dialog cfg b before = Ok (b1, rs) →
  Ctx.prev_resp_act c = Some label →
  label ∉ actions cfg →
  _infer_dialog cfg b (before ++ c :: after) = Raise ValueError.
Proof.
  unfold _infer_dialog. intros Hrun Hc Hnot.
  rewrite for_each_app, Hrun, bind_ret. cbn [for_each]. rewrite Hc.
  destruct (_encode_response cfg label) as [a|e] eqn:E.
  - apply encode_response_Ok in E as [Ha _]. destruct Hnot.
    apply list_elem_of_lookup. eauto.
  - apply index_from_Raise in E as [-> _]. reflexivity.
Qed.





End MoreProperties.

(** ** The properties on the concrete configuration *)

#[local] Existing Instance pattern_template.
#[local] Existing Instance Demo.tracker_inst.

(** With the tracker modelled from the spec, the tracker state [reset()]
    leaves is the empty mapping. *)
Lemma reset_empties_slot_tracker (slot_names : list string) {Tm : TemplateI}
    (cfg : GoalOrientedBotConfig) (b : @Bot (slot_tracker slot_names)) :
  @get_state (slot_tracker slot_names) (tracker (reset cfg b)) = ∅.
Proof. reflexivity. Qed.

Lemma succeeds_Ok {A} (dflt : A) (r : Result A) :
  succeeds r = true → r = Ok (result_or dflt r).
Proof. by destruct r. Qed.

Lemma demo_trained :
  train_dialog_turns Demo.cfg Demo.start
    ([Demo.turn1; Demo.turn2], [Demo.resp1; Demo.resp2])
  = Ok (Demo.trained.1, Demo.trained.2).
Proof. rewrite <- surjective_pairing. apply succeeds_Ok. vm_compute. reflexivity. Qed.

Lemma demo_answered :
  infer Demo.cfg Demo.used_bot (OfStr "hi again") = Ok (Demo.answered.1, Demo.answered.2).
Proof. rewrite <- surjective_pairing. apply succeeds_Ok. vm_compute. reflexivity. Qed.

Lemma demo_finished :
  train Demo.cfg Demo.evaluate Demo.bot Demo.data
  = Ok (Demo.finished.1, Some (PatienceOver, Demo.trained_log)).
Proof.
  replace (Some (PatienceOver, Demo.trained_log)) with Demo.finished.2
    by (vm_compute; reflexivity).
  rewrite <- surjective_pairing. apply succeeds_Ok. vm_compute. reflexivity.
Qed.

Lemma demo_labels_known :
  Forall (λ turn : Ctx.t * Resp.t, Resp.act turn.2 ∈ actions Demo.cfg)
         (Py.zip [Demo.turn1; Demo.turn2] [Demo.resp1; Demo.resp2; Demo.resp1]).
Proof. repeat constructor; apply (bool_decide_unpack _); vm_compute; reflexivity. Qed.

Lemma encode_decode_roundtrip_demo :
  "welcome" ∈ actions Demo.cfg
  ∧ ∃ (i : nat) (t : list Piece),
      _encode_response Demo.cfg "welcome" = Ok i
      ∧ templates Demo.cfg !! i = Some ("welcome", t)
      ∧ (∀ k, (k < i)%nat → actions Demo.cfg !! k ≠ Some "welcome")
      ∧ Py.getitem (templates_list Demo.cfg) (Z.of_nat i) = Ok t
      ∧ _decode_response Demo.cfg Demo.bot (Z.of_nat i)
        = Ok (generate_text t (response_slots Demo.bot)).
Proof.
  assert ("welcome" ∈ actions Demo.cfg) as Hin.
  { apply (bool_decide_unpack _). vm_compute. reflexivity. }
  split; [exact Hin|].
  exact (encode_decode_roundtrip Demo.cfg Demo.bot "welcome" Hin).
Defined.

(** Against claim C2 as stated: decoding the index -1, which is outside
    [0, n_actions), does not fail; it renders the last template. *)
Lemma decode_negative_index :
  _decode_response Demo.cfg Demo.bot (-1) = Ok "Hello"
  ∧ ¬ ((∃ e, _decode_response Demo.cfg Demo.bot (-1) = Raise e) ↔
       ¬ (0 ≤ -1 < Z.of_nat (n_actions Demo.cfg))).
Proof.
  assert (_decode_response Demo.cfg Demo.bot (-1) = Ok "Hello") as Hdec
    by (vm_compute; reflexivity).
  split; [exact Hdec|].
  intros [_ H]. destruct H as [e He]; [lia|]. rewrite Hdec in He. discriminate He.
Qed.

(** Claim C1, on the code.  With masking enabled, the template of action 1
    references the slot [food], which is neither in the tracker's state nor
    in the database result; the mask nevertheless leaves the action eligible,
    because the pattern the mask loop searches for matches only the text of
    the pattern itself and never a slot placeholder. *)
Theorem action_mask_misses_unknown_slot :
  use_action_mask Demo.cfg = true
  ∧ templates_list Demo.cfg !! 1%nat = Some [Lit "I have "; Slot "food"; Lit " food"]
  ∧ template_slots [Lit "I have "; Slot "food"; Lit " food"] = ["food"]
  ∧ template_str [Lit "I have "; Slot "food"; Lit " food"] = "I have #food food"
  ∧ get_state (tracker Demo.bot) !! "food" = None
  ∧ db_result Demo.bot = None
  ∧ Py.findall "#{}" "I have #food food" = []
  ∧ _action_mask Demo.cfg Demo.bot = Ok [1%float; 1%float; 1%float].
Proof. repeat split; vm_compute; reflexivity. Qed.

Lemma surplus_turns_ignored_demo :
  ∃ b' d,
    train_dialog Demo.cfg Demo.bot
      ([Demo.turn1; Demo.turn2], [Demo.resp1; Demo.resp2; Demo.resp1]) = Ok b'
    ∧ network b' = network Demo.bot
                   ++ [NetResetState; NetTrain (d_features d) (d_actions d) (d_masks d)]
    ∧ length (d_features d) = 2%nat
    ∧ length (d_actions d) = 2%nat
    ∧ length (d_masks d) = 2%nat.
Proof.
  exact (proj1 (surplus_turns_ignored Demo.cfg Demo.bot [Demo.turn1; Demo.turn2]
                  [Demo.resp1; Demo.resp2; Demo.resp1] demo_labels_known)).
Defined.

Lemma teacher_forcing_demo :
  d_actions Demo.trained.2 = [2%nat; 0%nat]
  ∧ (∀ f, d_features Demo.trained.2 !! 0%nat = Some f → [0; 0; 0]%float `suffix_of` f)
  ∧ (∀ f, d_features Demo.trained.2 !! 1%nat = Some f → [0; 0; 1]%float `suffix_of` f).
Proof.
  split; [vm_compute; reflexivity|].
  pose proof (teacher_forcing Demo.cfg Demo.bot (metrics Demo.bot) _ _ _ _ demo_trained)
    as [Hfirst Hnext].
  split; [exact Hfirst|]. intros f Hf.
  assert (d_actions Demo.trained.2 !! 0%nat = Some 2%nat) as Ha
    by (vm_compute; reflexivity).
  exact (proj1 (proj2 (proj2 (Hnext 0%nat 2%nat Ha)) f Hf)).
Defined.

Lemma sticky_db_result_demo :
  db_result Demo.trained.1 = Some {[ "x" := Py.VInt 1 ]}
  ∧ ∃ f pre memory,
      d_features Demo.trained.2 !! 1%nat = Some f
      ∧ f = pre ++ [0%float; 0%float] ++ memory
      ∧ length memory = 3%nat.
Proof.
  exact (proj2 (proj2 (proj2 (proj2 (sticky_db_result Demo.cfg Demo.bot (metrics Demo.bot)
                                       _ _ _ _ demo_trained))))
           Demo.turn1 Demo.turn2 Demo.resp1 Demo.resp2 eq_refl eq_refl eq_refl eq_refl).
Defined.

Lemma demo_used_bot :
  db_result Demo.used_bot = Some {[ "x" := Py.VInt 1 ]}
  ∧ prev_action Demo.used_bot = [0; 0; 1]%float
  ∧ get_state (tracker Demo.used_bot) = {[ "area" := "north" ]}
  ∧ is_empty_dict (db_result Demo.used_bot) = 0%float.
Proof. repeat split; vm_compute; reflexivity. Qed.

Lemma infer_string_keeps_state_demo :
  (∃ features mask,
      network Demo.answered.1 = network Demo.used_bot ++ [NetInfer features mask]
      ∧ [0; 0; 0; 0; 1]%float `suffix_of` features)
  ∧ db_result Demo.answered.1 = Some {[ "x" := Py.VInt 1 ]}.
Proof.
  destruct (infer_string_keeps_state Demo.cfg Demo.used_bot _ "hi again" _ demo_answered)
    as ((mask & Hnet) & Hdb & _).
  destruct demo_used_bot as (Hused & Hmem & _ & Hflag).
  split; [|by rewrite Hdb].
  eexists _, mask. split; [exact Hnet|].
  rewrite Hmem, Hflag. do 4 apply suffix_app_r. done.
Defined.

Lemma feature_vector_layout_demo :
  width Demo.cfg 2 0 2 2 = 11%nat
  ∧ length (d_features Demo.trained.2) = 2%nat
  ∧ Forall (λ f, length f = 11%nat) (d_features Demo.trained.2).
Proof.
  split; [vm_compute; reflexivity|].
  refine (proj1 (proj2 (feature_vector_layout Demo.cfg 2 0 2 2 _ _ _ _))
            Demo.bot (metrics Demo.bot) _ _ _ _ demo_trained).
  - intros s. reflexivity.
  - intros e s He. discriminate He.
  - intros e s He. injection He as <-. reflexivity.
  - intros t. reflexivity.
Defined.

Lemma early_stopping_demo :
  map action_accuracy Demo.trained_log = [0.5; 0.4; 0.3]%float
  ∧ val_patience Demo.cfg = 2
  ∧ num_epochs Demo.cfg = 5%nat
  ∧ length Demo.trained_log = 3%nat
  ∧ ∃ calls, network Demo.finished.1 = calls ++ [NetSave].
Proof.
  split; [reflexivity|]. split; [reflexivity|]. split; [reflexivity|].
  destruct (early_stopping Demo.cfg Demo.evaluate Demo.data Demo.bot _ _ _ demo_finished)
    as (_ & _ & _ & _ & _ & _ & _ & Hsave & Hexample).
  split; [|exact Hsave].
  refine (proj2 (Hexample eq_refl _ _)).
  - vm_compute. lia.
  - intros [|[|[|i]]] e He Hi; try (injection He as <-; reflexivity). lia.
Defined.

(** *** Instances of the further properties *)

Lemma runs_batch_known :
  Forall (λ dialog : list Ctx.t * list Resp.t,
            Forall (λ turn : Ctx.t * Resp.t, Resp.act turn.2 ∈ actions Demo.cfg)
                   (Py.zip dialog.1 dialog.2))
         (Py.zip Runs.batch.1 Runs.batch.2).
Proof. repeat constructor; apply (bool_decide_unpack _); vm_compute; reflexivity. Qed.

Lemma runs_counted :
  train_dialog Demo.cfg Demo.bot ([Demo.turn1; Demo.turn2], [Demo.resp1; Demo.resp2])
  = Ok Runs.counted.
Proof. apply succeeds_Ok. vm_compute. reflexivity. Qed.

Lemma runs_dialog_answers :
  _infer_dialog Demo.cfg Demo.bot [Demo.turn1; Demo.turn2]
  = Ok (Runs.dialog_answers.1, Runs.dialog_answers.2).
Proof. rewrite <- surjective_pairing. apply succeeds_Ok. vm_compute. reflexivity. Qed.

Lemma runs_first_answer :
  _infer_dialog Demo.cfg Demo.bot [Demo.turn1]
  = Ok (Runs.first_answer.1, Runs.first_answer.2).
Proof. rewrite <- surjective_pairing. apply succeeds_Ok. vm_compute. reflexivity. Qed.

Lemma runs_batch_answers :
  infer Demo.cfg Demo.bot (OfBatch [[Demo.turn1; Demo.turn2]; [Demo.turn1]])
  = Ok (Runs.batch_answers.1, Runs.batch_answers.2).
Proof. rewrite <- surjective_pairing. apply succeeds_Ok. vm_compute. reflexivity. Qed.

Lemma runs_hasty :
  train Runs.impatient Demo.evaluate Demo.bot Demo.data
  = Ok (Runs.hasty.1,
        Some (PatienceOver,
              [{| action_accuracy := 0.5; curr_patience := 0;
                  best_valid_accuracy := 0.5 |}])).
Proof.
  replace (Some (PatienceOver,
              [{| action_accuracy := 0.5%float; curr_patience := 0;
                  best_valid_accuracy := 0.5%float |}])) with Runs.hasty.2
    by (vm_compute; reflexivity).
  rewrite <- surjective_pairing. apply succeeds_Ok. vm_compute. reflexivity.
Qed.

Lemma runs_turn_trained :
  train_turn Runs.literal (Runs.literal_bot, no_turns) (Runs.lookup_turn, Runs.raw_resp)
  = Ok Runs.turn_trained.
Proof. apply succeeds_Ok. vm_compute. reflexivity. Qed.

Lemma runs_turn_answered :
  _infer Runs.literal Runs.literal_bot (Ctx.text Runs.lookup_turn)
         (Ctx.db_result Runs.lookup_turn) false
  = Ok (Runs.turn_answered.1, Runs.turn_answered.2).
Proof. rewrite <- surjective_pairing. apply succeeds_Ok. vm_compute. reflexivity. Qed.

Lemma demo_network_lengths (net : list NetCall) (features mask : list float) :
  length mask = n_actions Demo.cfg →
  length (network_infer Demo.cfg net features mask) = n_actions Demo.cfg.
Proof. intros <-. apply length_imap. Qed.

Lemma train_on_batch_calls_demo :
  ∃ b' ds,
    train_on_batch Demo.cfg Demo.bot Runs.batch = Ok (b', Some ())
    ∧ network b' = network Demo.bot ++ batch_calls ds
    ∧ length ds = 2%nat.
Proof.
  destruct (train_on_batch_calls Demo.cfg Demo.bot Runs.batch eq_refl runs_batch_known)
    as (b' & ds & Hrun & Hnet & Hlen & _).
  exists b', ds. split; [exact Hrun|]. split; [exact Hnet|exact Hlen].
Defined.

Lemma train_dialog_metrics_demo :
  n_dialogs (metrics Runs.counted) = 1.
Proof.
  destruct (train_dialog_metrics Demo.cfg _ _ _ runs_counted) as (st & _ & Hd & _).
  exact Hd.
Defined.

Lemma train_edge_cases_demo :
  val_patience Runs.impatient = 0
  ∧ num_epochs Runs.impatient = 5%nat
  ∧ ∃ log, Runs.hasty.2 = Some (PatienceOver, log) ∧ length log = 1%nat.
Proof.
  split; [reflexivity|]. split; [reflexivity|].
  eexists. split; [vm_compute; reflexivity|].
  refine (proj2 (proj2 (train_edge_cases Runs.impatient Demo.evaluate Demo.data Demo.bot
                          _ _ _ runs_hasty) _ _)).
  - reflexivity.
  - discriminate.
Defined.

Lemma dialog_isolation_demo :
  db_result Runs.stale ≠ db_result Demo.bot
  ∧ _infer_dialog Demo.cfg Demo.bot [Demo.turn1; Demo.turn2]
    = _infer_dialog Demo.cfg Runs.stale [Demo.turn1; Demo.turn2].
Proof.
  split; [discriminate|].
  exact (proj1 (dialog_isolation Demo.cfg Demo.bot Runs.stale eq_refl eq_refl eq_refl)
           [Demo.turn1; Demo.turn2]).
Defined.

Lemma infer_outcome_demo :
  ∃ mask,
    _action_mask Demo.cfg (_encode_context Demo.cfg Demo.bot "hi" None).1 = Ok mask
    ∧ ∃ b', _infer Demo.cfg Demo.bot "hi" None false = Ok (b', "Hello")
            ∧ prev_action b' = [0%float; 0%float; 1%float].
Proof.
  destruct (infer_outcome Demo.cfg Demo.bot "hi" None (or_introl eq_refl))
    as (mask & Hmask & Hcase).
  exists mask. split; [exact Hmask|].
  assert (Ok mask = Ok [1%float; 1%float; 1%float]) as [= ->]
    by (rewrite <- Hmask; vm_compute; reflexivity).
  replace (Np.argmax _) with (Ok (A:=nat) 2%nat) in Hcase by (vm_compute; reflexivity).
  destruct Hcase as (b' & Hrun & _ & _ & Hpa).
  exists b'. split; [exact Hrun | exact Hpa].
Defined.

Lemma infer_dialog_reads_demo :
  ∃ calls,
    network Runs.dialog_answers.1 = network Demo.bot ++ NetResetState :: calls
    ∧ infer_reads Demo.cfg (network Demo.bot ++ [NetResetState])
                  (Np.zeros (n_actions Demo.cfg)) None [Demo.turn1; Demo.turn2] calls
    ∧ db_result Runs.dialog_answers.1 = stored_db None [Demo.turn1; Demo.turn2]
    ∧ length Runs.dialog_answers.2 = 2%nat.
Proof. exact (infer_dialog_reads Demo.cfg _ _ _ _ runs_dialog_answers). Defined.

Lemma infer_succeeds_demo :
  ∃ b' r, infer Demo.cfg Demo.bot (OfBatch [[Demo.turn1; Demo.turn2]; [Demo.turn1]])
          = Ok (b', r).
Proof.
  apply (infer_succeeds Demo.cfg Demo.bot
           (OfBatch [[Demo.turn1; Demo.turn2]; [Demo.turn1]]) demo_network_lengths).
  - discriminate.
  - assert (∀ label, Ctx.prev_resp_act Demo.turn1 = Some label →
                     label ∈ actions Demo.cfg) as H1 by (intros label [=]).
    assert (∀ label, Ctx.prev_resp_act Demo.turn2 = Some label →
                     label ∈ actions Demo.cfg) as H2.
    { intros label [= <-]. apply (bool_decide_unpack _). vm_compute. reflexivity. }
    repeat apply Forall_cons_2; try apply Forall_nil_2; assumption.
Defined.

Lemma infer_batch_shape_demo :
  ∃ rs,
    Runs.batch_answers.2 = Responses rs
    ∧ Forall2 (λ (x : list Ctx.t) (r : list string), length r = length x)
              [[Demo.turn1; Demo.turn2]; [Demo.turn1]] rs
    ∧ db_result Runs.batch_answers.1 = Some {[ "x" := Py.VInt 1 ]}.
Proof.
  destruct (infer_batch_shape Demo.cfg _ _ _ _ runs_batch_answers)
    as (rs & Hres & Hall & _ & Hlast).
  exists rs. split; [exact Hres|]. split; [exact Hall|].
  exact (Hlast [Demo.turn1] eq_refl).
Defined.

Lemma memory_invariant_demo :
  memory_ok Demo.cfg (prev_action Demo.used_bot)
  ∧ memory_ok Demo.cfg (prev_action Demo.answered.1).
Proof.
  assert (memory_ok Demo.cfg (prev_action Demo.used_bot)) as Hmem.
  { right. exists 2%nat. split; [vm_compute; lia | vm_compute; reflexivity]. }
  split; [exact Hmem|].
  exact (proj1 (proj2 (proj2 (memory_invariant Demo.cfg Demo.used_bot Hmem)))
           _ _ _ demo_answered).
Defined.

Lemma mask_timing_demo :
  ∃ features mask_train mask_infer,
    d_masks Runs.turn_trained.2 = [mask_train]
    ∧ network Runs.turn_answered.1
      = network Runs.literal_bot ++ [NetInfer features mask_infer]
    ∧ mask_train = [1%float; 1%float]
    ∧ mask_infer = [1%float; 0%float].
Proof.
  destruct (mask_timing Runs.literal Runs.literal_bot _ Runs.lookup_turn Runs.raw_resp _ _
              runs_turn_trained runs_turn_answered)
    as (features & mask_train & mask_infer & _ & Hmasks & Hnet & Htrain & Hinfer & _).
  exists features, mask_train, mask_infer.
  split; [exact Hmasks|]. split; [exact Hnet|]. split.
  - assert (Ok mask_train = Ok [1%float; 1%float]) as [= ->]; [|reflexivity].
    rewrite <- Htrain. vm_compute. reflexivity.
  - assert (Ok mask_infer = Ok [1%float; 0%float]) as [= ->]; [|reflexivity].
    rewrite <- Hinfer. vm_compute. reflexivity.
Defined.

Lemma infer_dialog_unknown_label_demo :
  _infer_dialog Demo.cfg Demo.bot ([Demo.turn1] ++ Runs.stray :: [Demo.turn2])
  = Raise ValueError.
Proof.
  apply (infer_dialog_unknown_label Demo.cfg Demo.bot _ _ [Demo.turn1] [Demo.turn2]
           Runs.stray "thanks" runs_first_answer eq_refl).
  apply (bool_decide_unpack _). vm_compute. reflexivity.
Defined.

